(** * s3dxrd.utils.postprocessing: the alpha-shape pipeline

    A shallow embedding of [src/s3dxrd/utils/postprocessing.py]
    ([alphashape], [_min_absolute_value], [find_best_approximations]) and the
    properties of its natural-language specification.

    Conventions of the embedding.
    - A NumPy [float64] is a primitive binary64 [float]; an [int64] is a [Z].
    - An array of shape (N,3) is a list of triples, a 4x4 matrix a 4-tuple of
      4-tuples, the voxel grid a nested list.
    - A Python exception is a value of [exn]; code that may raise returns a
      [res]; code that also mutates arrays in place runs in the monad [M]
      over a store of arrays addressed by location.
    - NumPy and scikit-image are libraries, not code of this repository:
      [np.argmin], [np.amax], [np.around] ... are modelled after their
      documented behaviour, and [measure.marching_cubes] is a parameter.
    - [@jit] is taken to preserve the meaning of the function it decorates,
      but for a division by zero, which raises ZeroDivisionError in the
      compiled function: what is proved of a distance of the projector
      assumes a norm that is not zero.
    - A matrix product is the dot product of rows and columns, summed from
      left to right and rounded after every operation; the arrays of the
      mesh are read as float64; memory is unbounded; the plots, which write
      no array, are left out. *)

From Stdlib Require Import ZArith Floats Lia.
From stdpp Require Import base option list strings.

Local Open Scope Z_scope.

(** ** Exceptions and results *)

Inductive exn : Type :=
  | ValueError (msg : string)
  | IndexError (msg : string)
  | OverflowError (msg : string).

(** The name of the exception's class, as [type(e).__name__] gives it. *)
Definition exn_name (e : exn) : string :=
  match e with
  | ValueError _ => "ValueError"
  | IndexError _ => "IndexError"
  | OverflowError _ => "OverflowError"
  end.

Inductive res (A : Type) : Type :=
  | Ok (a : A)
  | Raise (e : exn).
Arguments Ok {A} a.
Arguments Raise {A} e.

#[global] Instance res_ret : MRet res := fun _ a => Ok a.
#[global] Instance res_bind : MBind res := fun _ _ f m =>
  match m with
  | Ok a => f a
  | Raise e => Raise e
  end.

Definition is_ok {A} (r : res A) : bool :=
  match r with Ok _ => true | Raise _ => false end.

(** ** Scalars *)

Definition point : Type := float * float * float.
Definition ipoint : Type := Z * Z * Z.

Module F.
Local Open Scope float_scope.

(** The integer 2^e * m for a positive mantissa, rounded toward zero. *)
Definition trunc_pos (m : positive) (e : Z) : Z := Z.shiftl (Zpos m) e.

(** Truncation toward zero of a finite float; 0 on NaN and infinities. *)
Definition trunc (x : float) : Z :=
  match Prim2SF x with
  | S754_finite s m e => if s then - trunc_pos m e else trunc_pos m e
  | _ => 0%Z
  end.

(** Rounding of 2^e * m to the nearest integer, halves to the even one. *)
Definition rint_pos (m : positive) (e : Z) : Z :=
  if (0 <=? e)%Z then Z.shiftl (Zpos m) e
  else
    let d := Z.shiftl 1 (- e) in
    let q := (Zpos m / d)%Z in
    let r := (Zpos m mod d)%Z in
    match (2 * r ?= d)%Z with
    | Lt => q
    | Gt => (q + 1)%Z
    | Eq => if Z.even q then q else (q + 1)%Z
    end.

Definition rint (x : float) : Z :=
  match Prim2SF x with
  | S754_finite s m e => if s then - rint_pos m e else rint_pos m e
  | _ => 0%Z
  end.

(** Conversion of an integer to the nearest float ([float(n)], and the
    conversion NumPy applies when an int64 meets a float64). *)
Definition of_Z (n : Z) : float := SF2Prim (binary_normalize prec emax n 0 false).

Definition int64_min : Z := - 2 ^ 63.

(** The C cast of a double to int64 as x86-64 performs it: truncation, and
    the "integer indefinite" value when the result does not fit. *)
Definition cast_int64 (x : float) : Z :=
  if is_finite x then
    let n := trunc x in
    if ((int64_min <=? n) && (n <? 2 ^ 63))%Z then n else int64_min
  else int64_min.

(** [np.around(x)] at zero decimals: round half to even, the float kept. *)
Definition around (x : float) : float :=
  if is_finite x && (abs x <? 4503599627370496) then of_Z (rint x) else x.

(** [int(x)] on a Python float. *)
Definition py_int (x : float) : res Z :=
  if is_nan x then Raise (ValueError "cannot convert float NaN to integer")
  else if is_infinity x then Raise (OverflowError "cannot convert float infinity to integer")
  else Ok (trunc x).

(** [np.maximum] and [np.minimum] on two elements: a NaN wins. *)
Definition maximum (a b : float) : float := if (b <=? a) || is_nan a then a else b.
Definition minimum (a b : float) : float := if (a <=? b) || is_nan a then a else b.
End F.

(** The order of [SFcompare] on the floats that are not NaN. *)
Module SF.
(** A float that is not a NaN, as a triple of integers ordered
    lexicographically the way [SFcompare] orders floats. *)
Definition key (x : spec_float) : Z * Z * Z :=
  match x with
  | S754_zero _ => (0, 0, 0)
  | S754_infinity false => (2, 0, 0)
  | S754_infinity true => (-2, 0, 0)
  | S754_nan => (0, 0, 0)
  | S754_finite false m e => (1, e, Zpos m)
  | S754_finite true m e => (-1, - e, Zneg m)
  end.

Definition lex3 (a b : Z * Z * Z) : comparison :=
  let '(a1, a2, a3) := a in
  let '(b1, b2, b3) := b in
  match a1 ?= b1 with
  | Eq => match a2 ?= b2 with Eq => a3 ?= b3 | c => c end
  | c => c
  end.
End SF.

(** ** NumPy reductions *)

(** [np.amax] / [np.amin] along an axis of the given elements. *)
Definition np_amax (xs : list float) : res float :=
  match xs with
  | [] => Raise (ValueError "zero-size array to reduction operation maximum which has no identity")
  | x :: xs' => Ok (fold_left F.maximum xs' x)
  end.

Definition np_amin (xs : list float) : res float :=
  match xs with
  | [] => Raise (ValueError "zero-size array to reduction operation minimum which has no identity")
  | x :: xs' => Ok (fold_left F.minimum xs' x)
  end.

(** The scan of [np.argmin] on floats: [mp] is the least element so far, at
    [min_ind]; element [i] replaces it unless [x >= mp]; a NaN ends the scan. *)
Fixpoint argmin_scan (xs : list float) (i : nat) (mp : float) (min_ind : nat) : nat :=
  match xs with
  | [] => min_ind
  | x :: xs' =>
      if negb (mp <=? x)%float then
        if is_nan x then i else argmin_scan xs' (S i) x i
      else argmin_scan xs' (S i) mp min_ind
  end.

Definition np_argmin (xs : list float) : res nat :=
  match xs with
  | [] => Raise (ValueError "attempt to get argmin of an empty sequence")
  | x :: xs' => Ok (if is_nan x then 0%nat else argmin_scan xs' 1 x 0)
  end.

(** ** Homogeneous coordinates and 4x4 matrices

    The matrices of [alphashape] are written once, over any scalar type with
    the operations the source uses, and evaluated over [float], that is in
    float64 arithmetic, by the pipeline. *)

Class Scalar (T : Type) : Type := {
  sc_of_Z : Z -> T;
  sc_add : T -> T -> T;
  sc_mul : T -> T -> T;
  sc_div : T -> T -> T
}.

#[global] Instance float_scalar : Scalar float :=
  {| sc_of_Z := F.of_Z; sc_add := PrimFloat.add; sc_mul := PrimFloat.mul; sc_div := PrimFloat.div |}.


Section Affine.
Context {T : Type} `{Scalar T}.

Definition vec4 : Type := T * T * T * T.
Definition mat4 : Type := vec4 * vec4 * vec4 * vec4.

Definition dot4 (r c : vec4) : T :=
  let '(r0, r1, r2, r3) := r in
  let '(c0, c1, c2, c3) := c in
  sc_add (sc_add (sc_add (sc_mul r0 c0) (sc_mul r1 c1)) (sc_mul r2 c2)) (sc_mul r3 c3).

(** [m @ v] for a column [v]. *)
Definition mat_vec (m : mat4) (v : vec4) : vec4 :=
  let '(m0, m1, m2, m3) := m in
  (dot4 m0 v, dot4 m1 v, dot4 m2 v, dot4 m3 v).

(** The entries 0 to 3 of a vector; over an array of columns, its rows
    ([a[k, :]]). *)
Definition coord0 (v : vec4) : T := let '(x, _, _, _) := v in x.
Definition coord1 (v : vec4) : T := let '(_, y, _, _) := v in y.
Definition coord2 (v : vec4) : T := let '(_, _, z, _) := v in z.
Definition coord3 (v : vec4) : T := let '(_, _, _, w) := v in w.

(** Column [k] of a matrix. *)
Definition column (m : mat4) (k : vec4 -> T) : vec4 :=
  let '(m0, m1, m2, m3) := m in (k m0, k m1, k m2, k m3).

(** [a @ b] for two 4x4 matrices. *)
Definition mat_mat (a b : mat4) : mat4 :=
  let '(a0, a1, a2, a3) := a in
  let row r := (dot4 r (column b coord0), dot4 r (column b coord1),
                dot4 r (column b coord2), dot4 r (column b coord3)) in
  (row a0, row a1, row a2, row a3).

(** [m @ a.T] for an array [a] of shape (N,4): one column per row of [a]. *)
Definition matmul (m : mat4) (cols : list vec4) : list vec4 := map (mat_vec m) cols.

Definition s0 : T := sc_of_Z 0.
Definition s1 : T := sc_of_Z 1.
Definition s25 : T := sc_of_Z 25.

(** Lines 62-63. *)
Definition transform_scale : mat4 :=
  ((s25, s0, s0, s0), (s0, s25, s0, s0), (s0, s0, s25, s0), (s0, s0, s0, s1)).
Definition inv_transform_scale : mat4 :=
  ((sc_div s1 s25, s0, s0, s0), (s0, sc_div s1 s25, s0, s0),
   (s0, s0, sc_div s1 s25, s0), (s0, s0, s0, s1)).

(** Lines 69-71; [shift] is an integer array, negated before it is stored. *)
Definition transform_direction (shift : ipoint) : mat4 :=
  let '(h0, h1, h2) := shift in
  ((s1, s0, s0, sc_of_Z (- h0)), (s0, s1, s0, sc_of_Z (- h1)),
   (s0, s0, s1, sc_of_Z (- h2)), (s0, s0, s0, s1)).
Definition inv_transform_direction (shift : ipoint) : mat4 :=
  let '(h0, h1, h2) := shift in
  ((s1, s0, s0, sc_of_Z h0), (s0, s1, s0, sc_of_Z h1),
   (s0, s0, s1, sc_of_Z h2), (s0, s0, s0, s1)).

(** [np.hstack((a, np.ones((a.shape[0], 1))))] on rows of three. *)
Definition hstack_ones (rows : list (T * T * T)) : list vec4 :=
  map (fun '(x, y, z) => (x, y, z, s1)) rows.

(** Real space to voxel space (lines 64 and 72) and back (lines 88 and 92). *)
Definition forward (shift : ipoint) (p : vec4) : vec4 :=
  mat_vec (transform_direction shift) (mat_vec inv_transform_scale p).
Definition inverse (shift : ipoint) (p : vec4) : vec4 :=
  mat_vec (mat_mat transform_scale (inv_transform_direction shift)) p.
End Affine.

Arguments vec4 T : clear implicits.
Arguments mat4 T : clear implicits.

(** ** The store of arrays *)

Inductive ndarray : Type :=
  | ArrF (rows : list point)    (** float64, shape (N,3) *)
  | ArrI (rows : list ipoint)   (** int64, shape (N,3) *)
  | ArrV (xs : list float).     (** float64, shape (N,) *)

#[global] Instance ndarray_inhabited : Inhabited ndarray := populate (ArrF []).

Abbreviation loc := nat.
Abbreviation heap := (list ndarray).

(** Computations that read and write the store and may raise; the store an
    exception leaves behind is kept. *)
Definition M (A : Type) : Type := heap -> res A * heap.

#[global] Instance M_ret : MRet M := fun _ a h => (Ok a, h).
#[global] Instance M_bind : MBind M := fun _ _ f m h =>
  match m h with
  | (Ok a, h') => f a h'
  | (Raise e, h') => (Raise e, h')
  end.

Definition lift {A} (r : res A) : M A := fun h => (r, h).
(** A new array object. *)
Definition alloc (a : ndarray) : M loc := fun h => (Ok (length h), h ++ [a]).
(** The array a reference points to (references handed out by [alloc] and by
    the caller are allocated; elsewhere the store reads as an empty array). *)
Definition load (l : loc) : M ndarray := fun h => (Ok (h !!! l), h).
Definition store (l : loc) (a : ndarray) : M unit := fun h => (Ok tt, <[l := a]> h).

Definition ipoint_to_point (p : ipoint) : point :=
  let '(x, y, z) := p in (F.of_Z x, F.of_Z y, F.of_Z z).

(** The rows of an array as float triples, as [for point in a] followed by
    [point[0]], [point[1]], [point[2]] in float arithmetic reads them. *)
Definition array_points (a : ndarray) : res (list point) :=
  match a with
  | ArrF rows => Ok rows
  | ArrI rows => Ok (map ipoint_to_point rows)
  | ArrV [] => Ok []
  | ArrV (_ :: _) => Raise (IndexError "invalid index to scalar variable.")
  end.

#[global] Instance float_inhabited : Inhabited float := populate 0%float.

(** ** [_min_absolute_value] (lines 135-138) *)

Definition _min_absolute_value (a1 a2 : point) : res ipoint :=
  let stacked := [a1; a2] in
  let column0 := map (fun '(x, _, _) => x) stacked in
  let column1 := map (fun '(_, y, _) => y) stacked in
  let column2 := map (fun '(_, _, z) => z) stacked in
  i0 ← np_argmin (map abs column0);
  i1 ← np_argmin (map abs column1);
  i2 ← np_argmin (map abs column2);
  r0 ← F.py_int (column0 !!! i0);
  r1 ← F.py_int (column1 !!! i1);
  r2 ← F.py_int (column2 !!! i2);
  mret (r0, r1, r2).

(** ** The voxel grid (lines 74-84) *)

Definition grid : Type := list (list (list float)).

(** [np.zeros(shape)] for a shape of three int64; memory is not bounded. *)
Definition np_zeros3 (shape : ipoint) : res grid :=
  let '(a, b, c) := shape in
  if (a <? 0) || (b <? 0) || (c <? 0)
  then Raise (ValueError "negative dimensions are not allowed")
  else Ok (replicate (Z.to_nat a) (replicate (Z.to_nat b) (replicate (Z.to_nat c) 0%float))).

(** An integer index on an axis of size [n]: negative indices count from
    the end, anything outside [-n, n) raises. *)
Definition norm_index (i : Z) (n : nat) : res nat :=
  if (0 <=? i) && (i <? Z.of_nat n) then Ok (Z.to_nat i)
  else if (- Z.of_nat n <=? i) && (i <? 0) then Ok (Z.to_nat (i + Z.of_nat n))
  else Raise (IndexError "index is out of bounds for axis").

(** [voxels[x, y, z] = v]. *)
Definition setitem3 (voxels : grid) (idx : ipoint) (v : float) : res grid :=
  let '(x, y, z) := idx in
  ix ← norm_index x (length voxels);
  let plane := voxels !!! ix in
  iy ← norm_index y (length plane);
  let line := plane !!! iy in
  iz ← norm_index z (length line);
  mret (<[ix := <[iy := <[iz := v]> line]> plane]> voxels).

(** Lines 78-79. *)
Fixpoint fill_voxels (voxels : grid) (voxel_coords : list ipoint) : res grid :=
  match voxel_coords with
  | [] => mret voxels
  | idx :: rest => voxels' ← setitem3 voxels idx 1%float; fill_voxels voxels' rest
  end.

(** [np.pad(voxels, 1, constant_values=0)] on a grid of the given shape. *)
Definition np_pad3 (shape : ipoint) (voxels : grid) : grid :=
  let '(_, b, c) := shape in
  let zline := replicate (Z.to_nat c + 2) 0%float in
  let zplane := replicate (Z.to_nat b + 2) zline in
  let pad_line (l : list float) := 0%float :: l ++ [0%float] in
  let pad_plane (p : list (list float)) := zline :: map pad_line p ++ [zline] in
  zplane :: map pad_plane voxels ++ [zplane].

(** ** The mesh of [measure.marching_cubes] *)

Record mesh : Type := Mesh {
  verts : list point;
  faces : list (Z * Z * Z);
  normals : list point
}.

(** What a Python function returns. *)
Inductive pyobj : Type :=
  | PyNone
  | PyArray (rows : list point).

Section Pipeline.
(** [skimage.measure.marching_cubes(voxels, step_size=1)]. *)
Variable marching_cubes : grid -> res mesh.
(** What storing [np.inf] in a slot of an int64 array does: NumPy's
    element-wise conversion raises OverflowError, a compiled cast stores
    an integer that depends on the platform. *)
Variable inf_to_int64 : res Z.

Local Open Scope float_scope.

(** ** [find_best_approximations] (lines 147-168) *)

(** [np.linalg.norm(normal)]. *)
Definition linalg_norm (normal : point) : float :=
  let '(n0, n1, n2) := normal in sqrt (n0 * n0 + n1 * n1 + n2 * n2).

(** Lines 155-157: one entry of [distances]. *)
Definition plane_distance (normal vertex p : point) : float :=
  let '(n0, n1, n2) := normal in
  let '(v0, v1, v2) := vertex in
  let '(p0, p1, p2) := p in
  let d := (- n0) * v0 - n1 * v1 - n2 * v2 in
  (n0 * p0 + n1 * p1 + n2 * p2 + d) / linalg_norm normal.

Definition sentinel : point := (infinity, infinity, infinity).

(** [a[i] = [np.inf, np.inf, np.inf]]. *)
Definition setitem_inf (a : ndarray) (i : nat) : res ndarray :=
  match a with
  | ArrF rows => Ok (ArrF (<[i := sentinel]> rows))
  | ArrI rows => z ← inf_to_int64; mret (ArrI (<[i := (z, z, z)]> rows))
  | ArrV _ => Raise (ValueError "setting an array element with a sequence.")
  end.

(** The body of the loop over the vertices (lines 152-167), for vertex [j]. *)
Definition fba_iteration (coords : loc) (j : nat) (vertex normal : point)
    (best_approximations : list point) : M (list point) :=
  a ← load coords;
  points ← lift (array_points a);
  let distances := map (plane_distance normal vertex) points in
  minind ← lift (np_argmin (map abs distances));
  let best_approximations := <[j := points !!! minind]> best_approximations in
  a' ← lift (setitem_inf a minind);
  _ ← store coords a';
  mret best_approximations.

Fixpoint fba_loop (coords : loc) (pairs : list (point * point)) (j : nat)
    (best_approximations : list point) : M (list point) :=
  match pairs with
  | [] => mret best_approximations
  | (vertex, normal) :: rest =>
      best' ← fba_iteration coords j vertex normal best_approximations;
      fba_loop coords rest (S j) best'
  end.

Definition find_best_approximations (coords : loc) (verts normals : list point) : M (list point) :=
  let best_approximations := map (fun _ => (0, 0, 0)) normals in
  fba_loop coords (zip verts normals) 0%nat best_approximations.

(** ** [alphashape] (lines 44-132) *)

(** The rows of a two-dimensional array as floats, as [np.hstack] with a
    float64 column reads them. *)
Definition hstack_rows (a : ndarray) : res (list point) :=
  match a with
  | ArrF rows => Ok rows
  | ArrI rows => Ok (map ipoint_to_point rows)
  | ArrV _ => Raise (ValueError "all the input arrays must have same number of dimensions")
  end.

(** [np.amax(voxel_coords[:3, :], axis=1)] and its [np.amin]. *)
Definition amax_rows3 (voxel_coords : list (vec4 float)) : res point :=
  x ← np_amax (map coord0 voxel_coords);
  y ← np_amax (map coord1 voxel_coords);
  z ← np_amax (map coord2 voxel_coords);
  mret (x, y, z).
Definition amin_rows3 (voxel_coords : list (vec4 float)) : res point :=
  x ← np_amin (map coord0 voxel_coords);
  y ← np_amin (map coord1 voxel_coords);
  z ← np_amin (map coord2 voxel_coords);
  mret (x, y, z).

(** [np.around(a).astype(int)] on one element. *)
Definition around_int (x : float) : Z := F.cast_int64 (F.around x).

(** Lines 60-72, the coordinate transform: the extrema, the shift and the
    cloud in voxel space. *)
Definition coordinate_transform (c : ndarray)
    : res (point * point * ipoint * list (vec4 float)) :=
  rows ← hstack_rows c;
  let coords_4d := hstack_ones rows in
  let voxel_coords := matmul inv_transform_scale coords_4d in
  max_vals ← amax_rows3 voxel_coords;
  min_vals ← amin_rows3 voxel_coords;
  shift ← _min_absolute_value max_vals min_vals;
  let voxel_coords := matmul (transform_direction shift) voxel_coords in
  mret (max_vals, min_vals, shift, voxel_coords).

(** Lines 74-84, the voxelizer: the integer cloud is a new array, the grid
    is filled and then padded. *)
Definition voxelizer (max_vals min_vals : point) (voxel_coords : list (vec4 float))
    : M (loc * grid) :=
  let '(max0, max1, max2) := max_vals in
  let '(min0, min1, min2) := min_vals in
  let voxel_volume_size :=
    (around_int (max0 - min0), around_int (max1 - min1), around_int (max2 - min2)) in
  let shape :=
    let '(size0, size1, size2) := voxel_volume_size in
    ((size0 + 1)%Z, (size1 + 1)%Z, (size2 + 1)%Z) in
  voxels ← lift (np_zeros3 shape);
  let rounded := map (fun '(x, y, z, _) => (around_int x, around_int y, around_int z)) voxel_coords in
  voxel_coords ← alloc (ArrI rounded);
  voxels ← lift (fill_voxels voxels rounded);
  mret (voxel_coords, np_pad3 shape voxels).

(** Lines 87-88 and 91-92, the transform back to real space of an array of
    shape (N,3). *)
Definition transform_back (shift : ipoint) (rows : list point) : list (vec4 float) :=
  let rows_4d := hstack_ones rows in
  matmul (mat_mat transform_scale (inv_transform_direction shift)) rows_4d.

(** Lines 60-92: every local of [alphashape] up to [approx_coords], which
    is the last one assigned and the value handed back here. *)
Definition alphashape_locals (coords : loc) : M (list (vec4 float)) :=
  c ← load coords;
  '(max_vals, min_vals, shift, voxel_coords) ← lift (coordinate_transform c);
  '(voxel_coords, voxels) ← voxelizer max_vals min_vals voxel_coords;
  m ← lift (marching_cubes voxels);
  let verts_coords := transform_back shift (verts m) in
  best_approximations ← find_best_approximations voxel_coords (verts m) (normals m);
  let approx_coords := transform_back shift best_approximations in
  mret approx_coords.

(** Lines 111-132: the plots read [approx_coords], [verts] and [faces] and
    write no array; [return result] is a comment, so the function falls
    off its end. *)
Definition alphashape (coords : loc) (nlayers : Z) (plot : bool) : M pyobj :=
  _ ← alphashape_locals coords;
  mret PyNone.
End Pipeline.

(** NumPy's own answer to [inf_to_int64]: converting [np.inf] element by
    element raises. *)
Definition numpy_inf_to_int64 : res Z :=
  Raise (OverflowError "cannot convert float infinity to integer").

(** A mesh of two vertices, whatever the grid: a stand-in for
    [measure.marching_cubes] in the runs on concrete clouds. *)
Definition two_vertex_mesh (voxels : grid) : res mesh :=
  Ok (Mesh [(0, 0, 0); (5, 0, 0)] [] [(1, 0, 0); (1, 0, 0)])%float.

(** ** Vocabulary of the properties *)

Section Vocabulary.
Local Open Scope float_scope.

(** [m] is the first position of a least element of [l]. *)
Definition first_min (l : list float) (m : nat) : Prop :=
  exists d, l !! m = Some d /\
    forall i x, l !! i = Some x -> (d <=? x) = true /\ ((i < m)%nat -> (d <? x) = true).

(** The absolute distances line 165 takes the argmin of. *)
Definition abs_distances (normal vertex : point) (pool : list point) : list float :=
  map abs (map (plane_distance normal vertex) pool).

(** No absolute distance evaluated during a pass over the pairs (vertex,
    normal), started on [pool], is NaN. *)
Fixpoint nan_free (pairs : list (point * point)) (pool : list point) : bool :=
  match pairs with
  | [] => true
  | (vertex, normal) :: rest =>
      forallb (fun d => negb (is_nan d)) (abs_distances normal vertex pool) &&
      match np_argmin (abs_distances normal vertex pool) with
      | Ok minind => nan_free rest (<[minind := sentinel]> pool)
      | Raise _ => true
      end
  end.

(** The projection as the specification words it, over the slots of the
    pool: for each pair in mesh order the first slot of least absolute
    distance is chosen, its point is the vertex's entry, and the slot is
    overwritten with the sentinel. [greedy_pass pairs pool entries pool']:
    the pass maps [pool] to the [entries], one per pair, and leaves [pool']. *)
Inductive greedy_pass : list (point * point) -> list point -> list point -> list point -> Prop :=
  | greedy_done pool : greedy_pass [] pool [] pool
  | greedy_step vertex normal rest pool minind entries pool' :
      first_min (abs_distances normal vertex pool) minind ->
      greedy_pass rest (<[minind := sentinel]> pool) entries pool' ->
      greedy_pass ((vertex, normal) :: rest) pool (pool !!! minind :: entries) pool'.

(** "Whichever of the maximum and the minimum has the smaller absolute
    value, ties in favour of the maximum". *)
Definition least_magnitude (max_val min_val : float) : float :=
  if abs min_val <? abs max_val then min_val else max_val.

(** A point of voxel space with finite coordinates. *)
Definition finite3 (v : vec4 float) : bool :=
  let '(x, y, z, _) := v in is_finite x && is_finite y && is_finite z.

(** A store [h'] that differs from [h] at location [c] at most. *)
Definition touches_only (c : loc) (h h' : heap) : Prop :=
  exists a, h' = <[c := a]> h.
End Vocabulary.

(** Unfolds one step of a computation in [M] or [res]. *)
Ltac run := unfold mbind, mret, M_bind, M_ret, res_bind, res_ret, lift, load, store, alloc; cbn.


(** ** Vocabulary of the further properties *)

Section MoreVocabulary.
Local Open Scope float_scope.

(** A binary float that is an infinity or a NaN. *)
Definition nonfinite (x : spec_float) : bool :=
  match x with
  | S754_infinity _ | S754_nan => true
  | _ => false
  end.

(** Every point of the pool has a finite plane distance for every pair
    (vertex, normal). *)
Definition finite_distances (pairs : list (point * point)) (pool : list point) : bool :=
  forallb (fun '(vertex, normal) =>
             forallb (fun p => is_finite (plane_distance normal vertex p)) pool) pairs.

(** For no pair (vertex, normal) is the plane distance of the sentinel a NaN. *)
Definition sentinel_never_nan (pairs : list (point * point)) : bool :=
  forallb (fun '(vertex, normal) => negb (is_nan (plane_distance normal vertex sentinel))) pairs.

(** The norm of lines 156-157 is not zero. The function is compiled by
    [@jit] (line 147), and a division by a zero norm raises
    ZeroDivisionError there instead of giving an infinity or a NaN. *)
Definition norm_nonzero (normal : point) : bool := negb (linalg_norm normal =? 0).

(** A grid of shape (a, b, c). *)
Definition well_shaped (a b c : nat) (g : grid) : Prop :=
  length g = a /\
  Forall (fun plane => length plane = b /\ Forall (fun line => length line = c) plane) g.

(** The cell [g[i, j, k]] for indices that are not negative. *)
Definition cell (g : grid) (i j k : nat) : option float :=
  plane ← g !! i; line ← plane !! j; line !! k.

(** An integer index that an axis of size [n] accepts, and the position it
    addresses. *)
Definition axis_ok (i : Z) (n : nat) : bool :=
  ((- Z.of_nat n <=? i) && (i <? Z.of_nat n))%Z.
Definition axis_pos (i : Z) (n : nat) : nat :=
  Z.to_nat (if (i <? 0)%Z then (i + Z.of_nat n)%Z else i).
Definition in_range (a b c : nat) (idx : ipoint) : bool :=
  let '(x, y, z) := idx in axis_ok x a && axis_ok y b && axis_ok z c.

(** The cell an index in range addresses in a grid of shape (a, b, c). *)
Definition pos3 (a b c : nat) (idx : ipoint) : nat * nat * nat :=
  let '(x, y, z) := idx in (axis_pos x a, axis_pos y b, axis_pos z c).

(** The cell on the outer layer of a grid of shape (a, b, c). *)
Definition on_border (a b c i j k : nat) : Prop :=
  i = 0%nat \/ S i = a \/ j = 0%nat \/ S j = b \/ k = 0%nat \/ S k = c.

(** The shape [voxel_volume_size + 1] of the grid the voxelizer fills. *)
Definition voxel_shape (max_vals min_vals : point) : nat * nat * nat :=
  let '(max0, max1, max2) := max_vals in
  let '(min0, min1, min2) := min_vals in
  (Z.to_nat (around_int (max0 - min0) + 1), Z.to_nat (around_int (max1 - min1) + 1),
   Z.to_nat (around_int (max2 - min2) + 1)).

(** No entry of the shape is negative. *)
Definition sizes_nonneg (max_vals min_vals : point) : bool :=
  let '(max0, max1, max2) := max_vals in
  let '(min0, min1, min2) := min_vals in
  ((0 <=? around_int (max0 - min0) + 1) && (0 <=? around_int (max1 - min1) + 1) &&
   (0 <=? around_int (max2 - min2) + 1))%Z.

(** The shift fits int64 with its negation: [np.array(shift)] is then an
    int64 array and the matrices of lines 69-71 are float64 arrays. *)
Definition shift_fits_int64 (shift : ipoint) : bool :=
  let '(h0, h1, h2) := shift in
  ((Z.abs h0 <? 2 ^ 63) && (Z.abs h1 <? 2 ^ 63) && (Z.abs h2 <? 2 ^ 63))%Z.

(** Line 77: the integer cloud. *)
Definition rounded_cloud (voxel_coords : list (vec4 float)) : list ipoint :=
  map (fun '(x, y, z, _) => (around_int x, around_int y, around_int z)) voxel_coords.

(** The exceptions of [int()] on a float that is not finite. *)
Definition nan_error : exn := ValueError "cannot convert float NaN to integer".
Definition infinity_error : exn := OverflowError "cannot convert float infinity to integer".

(** Some coordinate of some point of the cloud is a NaN. *)
Definition has_nan (rows : list point) : bool :=
  existsb (fun '(x, y, z) => is_nan x || is_nan y || is_nan z) rows.

(** The grid of the voxel-space cloud (0,0,0), (1,1,1): shape (2,2,2),
    padded to (4,4,4). *)
Definition two_voxel_grid : grid :=
  [[[0; 0; 0; 0]; [0; 0; 0; 0]; [0; 0; 0; 0]; [0; 0; 0; 0]];
   [[0; 0; 0; 0]; [0; 1; 0; 0]; [0; 0; 0; 0]; [0; 0; 0; 0]];
   [[0; 0; 0; 0]; [0; 0; 0; 0]; [0; 0; 1; 0]; [0; 0; 0; 0]];
   [[0; 0; 0; 0]; [0; 0; 0; 0]; [0; 0; 0; 0]; [0; 0; 0; 0]]].

(** Two floats that are the same number: equal, or zeros of either sign. *)
Definition same_number (x y : float) : Prop :=
  x = y \/ (is_zero x = true /\ is_zero y = true).
Definition same_point (u v : vec4 float) : Prop :=
  let '(u0, u1, u2, u3) := u in
  let '(v0, v1, v2, v3) := v in
  same_number u0 v0 /\ same_number u1 v1 /\ same_number u2 v2 /\ same_number u3 v3.

(** The point of index [n] of the sampling grid (measurements are taken 25
    microns apart), and the point of voxel space with integer coordinates. *)
Definition grid_point (n : ipoint) : vec4 float :=
  let '(n0, n1, n2) := n in (F.of_Z (25 * n0), F.of_Z (25 * n1), F.of_Z (25 * n2), 1).
Definition voxel_point (n : ipoint) : vec4 float :=
  let '(n0, n1, n2) := n in (F.of_Z n0, F.of_Z n1, F.of_Z n2, 1).
Definition minus3 (n h : ipoint) : ipoint :=
  let '(n0, n1, n2) := n in
  let '(h0, h1, h2) := h in ((n0 - h0)%Z, (n1 - h1)%Z, (n2 - h2)%Z).

(** Integer triples of entries of magnitude [B] at most. *)
Definition within (B : Z) (n : ipoint) : Prop :=
  let '(n0, n1, n2) := n in
  (Z.abs n0 <= B /\ Z.abs n1 <= B /\ Z.abs n2 <= B)%Z.

(** One axis of the two transforms as the matrix products compute it in
    float64, the products by the zero entries left out: real space to voxel
    space, and voxel space to real space. *)
Definition axis_forward (x : float) (h : Z) : float := 1 * (1 / 25 * x) + F.of_Z (- h) * 1.
Definition axis_inverse (v : float) (h : Z) : float := 25 * v + 25 * F.of_Z h * 1.

(** The float64 operations of one axis of the transforms, checked on the
    grid index [n] (at [X]) under the shift [h] (at [H], its negation at
    [H']): real space to voxel space gives the integer [n - h], and voxel
    space to real space gives [X] back. *)
Definition axis_check (n : Z) (X : float) (entry : Z * (float * float)) : bool :=
  let '(h, (H, H')) := entry in
  let d := 1 * (1 / 25 * X) + H' * 1 in
  is_finite d && PrimFloat.Leibniz.eqb d (F.of_Z (n - h)) &&
  PrimFloat.Leibniz.eqb (25 * d + 25 * H * 1) X.
Definition zrange (B : Z) : list Z :=
  map (fun i => (Z.of_nat i - B)%Z) (seq 0 (Z.to_nat (2 * B + 1))).
Definition shift_table (B : Z) : list (Z * (float * float)) :=
  map (fun h => (h, (F.of_Z h, F.of_Z (- h)))) (zrange B).
Definition grid_check (B : Z) : bool :=
  let hs := shift_table B in
  forallb (fun '(_, (H, H')) => is_finite H && is_finite H') hs &&
  forallb (fun n => let X := F.of_Z (25 * n) in
                    is_finite X && is_finite (1 / 25 * X) && forallb (axis_check n X) hs)
          (zrange B).
End MoreVocabulary.
(** * Properties *)

(** ** The order of binary64 floats *)

Module FloatOrder.
Import SF.
Local Open Scope Z_scope.

Lemma SFcompare_key x y :
  x <> S754_nan -> y <> S754_nan -> SFcompare x y = Some (lex3 (key x) (key y)).
Proof.
  intros Hx Hy.
  destruct x as [sx|sx| |sx mx ex], y as [sy|sy| |sy my ey]; try congruence;
    try (destruct sx); try (destruct sy); try reflexivity.
  cbn; rewrite Z.compare_opp, (Z.compare_antisym ex ey); destruct (ex ?= ey); reflexivity.
Qed.

Lemma lex3_refl a : lex3 a a = Eq.
Proof. destruct a as [[a1 a2] a3]. cbn. now rewrite !Z.compare_refl. Qed.

Lemma lex3_antisym a b : lex3 b a = CompOpp (lex3 a b).
Proof.
  destruct a as [[a1 a2] a3], b as [[b1 b2] b3]. cbn.
  rewrite (Z.compare_antisym a1 b1), (Z.compare_antisym a2 b2), (Z.compare_antisym a3 b3).
  destruct (a1 ?= b1), (a2 ?= b2), (a3 ?= b3); reflexivity.
Qed.

Lemma lex3_trans a b c :
  lex3 a b <> Gt -> lex3 b c <> Gt ->
  lex3 a c <> Gt /\ (lex3 a b = Lt \/ lex3 b c = Lt -> lex3 a c = Lt).
Proof.
  destruct a as [[a1 a2] a3], b as [[b1 b2] b3], c as [[c1 c2] c3]. cbn.
  destruct (Z.compare_spec a1 b1), (Z.compare_spec b1 c1), (Z.compare_spec a1 c1);
    try lia; try (intuition congruence);
    destruct (Z.compare_spec a2 b2), (Z.compare_spec b2 c2), (Z.compare_spec a2 c2);
    try lia; try (intuition congruence);
    destruct (Z.compare_spec a3 b3), (Z.compare_spec b3 c3), (Z.compare_spec a3 c3);
    try lia; intuition congruence.
Qed.

Local Open Scope float_scope.

Lemma is_nan_false x : is_nan x = false <-> Prim2SF x <> S754_nan.
Proof.
  unfold is_nan. rewrite FloatAxioms.eqb_spec. unfold SFeqb. split.
  - intros E N. rewrite N in E. discriminate.
  - intros N. now rewrite (SFcompare_key _ _ N N), lex3_refl.
Qed.

Lemma leb_true x y :
  (x <=? y) = true <->
  Prim2SF x <> S754_nan /\ Prim2SF y <> S754_nan /\ lex3 (key (Prim2SF x)) (key (Prim2SF y)) <> Gt.
Proof.
  rewrite FloatAxioms.leb_spec. unfold SFleb. split.
  - intros E.
    assert (Prim2SF x <> S754_nan) as Nx by (intros N; rewrite N in E; discriminate).
    assert (Prim2SF y <> S754_nan) as Ny
      by (intros N; rewrite N in E; destruct (Prim2SF x); discriminate).
    rewrite (SFcompare_key _ _ Nx Ny) in E.
    repeat split; try assumption. intros G. rewrite G in E. discriminate.
  - intros (Nx & Ny & G). rewrite (SFcompare_key _ _ Nx Ny).
    destruct (lex3 _ _); congruence.
Qed.

Lemma ltb_true x y :
  (x <? y) = true <->
  Prim2SF x <> S754_nan /\ Prim2SF y <> S754_nan /\ lex3 (key (Prim2SF x)) (key (Prim2SF y)) = Lt.
Proof.
  rewrite FloatAxioms.ltb_spec. unfold SFltb. split.
  - intros E.
    assert (Prim2SF x <> S754_nan) as Nx by (intros N; rewrite N in E; discriminate).
    assert (Prim2SF y <> S754_nan) as Ny
      by (intros N; rewrite N in E; destruct (Prim2SF x); discriminate).
    rewrite (SFcompare_key _ _ Nx Ny) in E.
    repeat split; try assumption. destruct (lex3 _ _); congruence.
  - intros (Nx & Ny & G). now rewrite (SFcompare_key _ _ Nx Ny), G.
Qed.

Lemma leb_refl x : is_nan x = false -> (x <=? x) = true.
Proof.
  intros N%is_nan_false. apply leb_true. repeat split; try assumption.
  rewrite lex3_refl. discriminate.
Qed.

(** Two floats that are not NaN are comparable. *)
Lemma leb_false x y :
  is_nan x = false -> is_nan y = false -> (x <=? y) = false -> (y <? x) = true.
Proof.
  intros Nx%is_nan_false Ny%is_nan_false E. apply ltb_true. repeat split; try assumption.
  rewrite lex3_antisym.
  destruct (lex3 (key (Prim2SF x)) (key (Prim2SF y))) eqn:G; try reflexivity;
    exfalso; apply Bool.not_true_iff_false in E; apply E, leb_true;
    repeat split; try assumption; congruence.
Qed.

Lemma ltb_leb x y : (x <? y) = true -> (x <=? y) = true.
Proof.
  intros (Nx & Ny & G)%ltb_true. apply leb_true. repeat split; try assumption. congruence.
Qed.

Lemma ltb_not_leb x y : (x <? y) = true -> (y <=? x) = false.
Proof.
  intros (Nx & Ny & G)%ltb_true. apply Bool.not_true_iff_false.
  intros (_ & _ & G')%leb_true. rewrite lex3_antisym, G in G'. now apply G'.
Qed.

Lemma leb_trans x y z : (x <=? y) = true -> (y <=? z) = true -> (x <=? z) = true.
Proof.
  intros (Nx & Ny & G1)%leb_true (_ & Nz & G2)%leb_true. apply leb_true.
  repeat split; try assumption. now apply (lex3_trans _ _ _ G1 G2).
Qed.

Lemma ltb_leb_trans x y z : (x <? y) = true -> (y <=? z) = true -> (x <? z) = true.
Proof.
  intros (Nx & Ny & G1)%ltb_true (_ & Nz & G2)%leb_true. apply ltb_true.
  repeat split; try assumption.
  apply (lex3_trans (key (Prim2SF x)) (key (Prim2SF y)) (key (Prim2SF z))); try congruence.
  now left.
Qed.

Lemma abs_nan x : is_nan (abs x) = is_nan x.
Proof.
  destruct (is_nan x) eqn:E.
  - apply Bool.not_false_iff_true. intros N%is_nan_false. rewrite FloatAxioms.abs_spec in N.
    apply Bool.not_false_iff_true in E. apply E, is_nan_false.
    intros Nx. now rewrite Nx in N.
  - apply is_nan_false. apply is_nan_false in E. rewrite FloatAxioms.abs_spec.
    destruct (Prim2SF x); try discriminate. congruence.
Qed.

Lemma finite_not_nan x : is_finite x = true -> is_nan x = false.
Proof. unfold is_finite. destruct (is_nan x); [discriminate | reflexivity]. Qed.
End FloatOrder.

(** ** [np.argmin] *)

Section Argmin.
Local Open Scope float_scope.
Import FloatOrder.

Lemma argmin_scan_bound xs : forall i mp min_ind,
  (min_ind < i)%nat -> (argmin_scan xs i mp min_ind < i + length xs)%nat.
Proof.
  induction xs as [|x xs IH]; intros i mp min_ind Hlt; cbn.
  - lia.
  - destruct (negb (mp <=? x)).
    + destruct (is_nan x); [lia|]. specialize (IH (S i) x i). lia.
    + specialize (IH (S i) mp min_ind). lia.
Qed.

Lemma np_argmin_bound xs :
  xs <> [] -> exists m, np_argmin xs = Ok m /\ (m < length xs)%nat.
Proof.
  destruct xs as [|x xs]; [congruence|]. intros _. cbn.
  eexists. split; [reflexivity|].
  destruct (is_nan x); [lia|].
  pose proof (argmin_scan_bound xs 1 x 0). lia.
Qed.

Lemma argmin_scan_first_min xs : forall pre mp min_ind,
  Forall (fun x => is_nan x = false) xs ->
  is_nan mp = false ->
  pre !! min_ind = Some mp ->
  (forall i x, pre !! i = Some x -> (mp <=? x) = true /\ ((i < min_ind)%nat -> (mp <? x) = true)) ->
  first_min (pre ++ xs) (argmin_scan xs (length pre) mp min_ind).
Proof.
  induction xs as [|x xs IH]; intros pre mp min_ind Hxs Hmp Hat Hpre; cbn.
  - rewrite app_nil_r. now exists mp.
  - apply Forall_cons in Hxs as [Hx Hxs].
    assert (min_ind < length pre)%nat as Hlt by (eapply lookup_lt_Some; eassumption).
    replace (pre ++ x :: xs) with ((pre ++ [x]) ++ xs) by now rewrite <- app_assoc.
    replace (S (length pre)) with (length (pre ++ [x])) by (rewrite length_app; cbn; lia).
    destruct (mp <=? x) eqn:E; cbn.
    + apply IH; try assumption.
      * rewrite lookup_app_l; assumption.
      * intros i y Hy. destruct (decide (i < length pre)%nat) as [Hi|Hi].
        -- rewrite lookup_app_l in Hy by assumption. now apply Hpre.
        -- rewrite lookup_app_r in Hy by lia.
           destruct (i - length pre)%nat eqn:Ei; cbn in Hy; [|discriminate].
           injection Hy as <-. split; [assumption | lia].
    + rewrite Hx. apply (leb_false _ _ Hmp Hx) in E. apply IH; try assumption.
      * rewrite lookup_app_r by lia. now rewrite Nat.sub_diag.
      * intros i y Hy. destruct (decide (i < length pre)%nat) as [Hi|Hi].
        -- rewrite lookup_app_l in Hy by assumption.
           destruct (Hpre i y Hy) as [Hle _].
           pose proof (ltb_leb_trans _ _ _ E Hle) as Hlty.
           split; [now apply ltb_leb | now intros _].
        -- rewrite lookup_app_r in Hy by lia.
           destruct (i - length pre)%nat eqn:Ei; cbn in Hy; [|discriminate].
           injection Hy as <-. split; [now apply leb_refl | lia].
Qed.

(** Without NaN, [np.argmin] returns the first position of the minimum. *)
Lemma np_argmin_first_min xs :
  xs <> [] -> Forall (fun x => is_nan x = false) xs ->
  exists m, np_argmin xs = Ok m /\ first_min xs m.
Proof.
  destruct xs as [|x xs]; [congruence|]. intros _ Hall.
  apply Forall_cons in Hall as [Hx Hxs]. cbn. rewrite Hx.
  eexists. split; [reflexivity|].
  apply (argmin_scan_first_min xs [x] x 0%nat); try assumption; try reflexivity.
  intros [|i] y Hy; cbn in Hy; [|discriminate].
  injection Hy as <-. split; [now apply leb_refl | lia].
Qed.

(** A NaN in first position is the answer, whatever follows. *)
Lemma np_argmin_nan_head x xs : is_nan x = true -> np_argmin (x :: xs) = Ok 0%nat.
Proof. intros E. cbn. now rewrite E. Qed.
End Argmin.

(** ** The projector on a float64 pool *)

Section Projector.
Variable inf_to_int64 : res Z.
Local Open Scope float_scope.

Lemma abs_distances_length normal vertex pool :
  length (abs_distances normal vertex pool) = length pool.
Proof. unfold abs_distances. now rewrite !length_map. Qed.

(** One iteration over a float64 pool: slot [minind] is read into entry
    [j] and then overwritten with the sentinel. *)
Lemma fba_iteration_float c j vertex normal best h pool minind :
  h !! c = Some (ArrF pool) ->
  np_argmin (abs_distances normal vertex pool) = Ok minind ->
  fba_iteration inf_to_int64 c j vertex normal best h =
    (Ok (<[j := pool !!! minind]> best), <[c := ArrF (<[minind := sentinel]> pool)]> h).
Proof.
  intros Hc Hmin. unfold fba_iteration. run.
  rewrite (list_lookup_total_correct _ _ _ Hc). cbn.
  unfold abs_distances in Hmin. now rewrite Hmin.
Qed.

Lemma fba_iteration_empty c j vertex normal best h :
  h !! c = Some (ArrF []) ->
  fba_iteration inf_to_int64 c j vertex normal best h =
    (Raise (ValueError "attempt to get argmin of an empty sequence"), h).
Proof.
  intros Hc. unfold fba_iteration. run.
  now rewrite (list_lookup_total_correct _ _ _ Hc).
Qed.

(** A pass over a non-empty float64 pool raises nothing, keeps the sizes,
    and leaves the entries below [j] alone. *)
Lemma fba_loop_float c pairs : forall j best h pool,
  h !! c = Some (ArrF pool) -> pool <> [] ->
  exists best' pool',
    fba_loop inf_to_int64 c pairs j best h = (Ok best', <[c := ArrF pool']> h) /\
    length pool' = length pool /\ length best' = length best /\
    forall k, (k < j)%nat -> best' !! k = best !! k.
Proof.
  induction pairs as [|[vertex normal] rest IH]; intros j best h pool Hc Hne.
  - exists best, pool. cbn. run. rewrite list_insert_id by assumption. auto.
  - destruct (np_argmin_bound (abs_distances normal vertex pool)) as (m & Hm & Hlt).
    { intros E. apply (f_equal length) in E. rewrite abs_distances_length in E.
      destruct pool; [congruence | discriminate]. }
    rewrite abs_distances_length in Hlt.
    assert (c < length h)%nat as Hcl by (eapply lookup_lt_Some; eassumption).
    destruct (IH (S j) (<[j := pool !!! m]> best)
                (<[c := ArrF (<[m := sentinel]> pool)]> h) (<[m := sentinel]> pool))
      as (best' & pool' & Hrun & Hl1 & Hl2 & Hkeep).
    { now apply list_lookup_insert_eq. }
    { intros E. apply (f_equal length) in E. rewrite length_insert in E.
      destruct pool; [congruence | discriminate]. }
    exists best', pool'. cbn. unfold mbind at 1, M_bind.
    rewrite (fba_iteration_float _ _ _ _ _ _ _ _ Hc Hm), Hrun.
    rewrite list_insert_insert_eq. rewrite !length_insert in *.
    repeat split; try assumption.
    intros k Hk. rewrite Hkeep by lia. apply list_lookup_insert_ne. lia.
Qed.
End Projector.

Section Exhaustion.
Variable inf_to_int64 : res Z.
Local Open Scope nat_scope.

(** Distinct consumed slots cannot outnumber the pool. *)
Lemma consumed_bound (pool : list point) (consumed : list nat) :
  NoDup consumed -> (forall i, i ∈ consumed -> pool !! i = Some sentinel) ->
  length consumed <= length pool.
Proof.
  intros Hnd Hin.
  rewrite <- (length_seq (length pool) 0).
  apply submseteq_length, NoDup_submseteq; [assumption|].
  intros i Hi. apply elem_of_seq. split; [lia|].
  cbn. eapply lookup_lt_Some, Hin, Hi.
Qed.

(** With more vertices left than unconsumed slots, a pass over a non-empty
    float64 pool raises nothing and hands some vertex the sentinel. *)
Lemma fba_loop_exhausts c pairs : forall j best h pool consumed,
  h !! c = Some (ArrF pool) -> pool <> [] ->
  NoDup consumed -> (forall i, i ∈ consumed -> pool !! i = Some sentinel) ->
  length pool < length pairs + length consumed ->
  j + length pairs <= length best ->
  exists best' h',
    fba_loop inf_to_int64 c pairs j best h = (Ok best', h') /\
    length best' = length best /\ exists k, best' !! k = Some sentinel.
Proof.
  induction pairs as [|[vertex normal] rest IH];
    intros j best h pool consumed Hc Hne Hnd Hin Hlen Hj.
  - pose proof (consumed_bound pool consumed Hnd Hin). cbn in Hlen. lia.
  - cbn in Hlen, Hj.
    destruct (np_argmin_bound (abs_distances normal vertex pool)) as (m & Hm & Hlt).
    { intros E. apply (f_equal length) in E. rewrite abs_distances_length in E.
      destruct pool; [congruence | discriminate]. }
    rewrite abs_distances_length in Hlt.
    assert (c < length h) as Hcl by (eapply lookup_lt_Some; eassumption).
    assert (<[c := ArrF (<[m := sentinel]> pool)]> h !! c = Some (ArrF (<[m := sentinel]> pool)))
      as Hc' by now apply list_lookup_insert_eq.
    assert (<[m := sentinel]> pool <> []) as Hne'.
    { intros E. apply (f_equal length) in E. rewrite length_insert in E.
      destruct pool; [congruence | discriminate]. }
    cbn. unfold mbind at 1, M_bind.
    rewrite (fba_iteration_float _ _ _ _ _ _ _ _ _ Hc Hm).
    destruct (decide (m ∈ consumed)) as [Hold|Hnew].
    + destruct (fba_loop_float inf_to_int64 c rest (S j) (<[j := pool !!! m]> best) _ _ Hc' Hne')
        as (best' & pool' & Hrun & _ & Hl & Hkeep).
      exists best', (<[c := ArrF pool']> (<[c := ArrF (<[m := sentinel]> pool)]> h)).
      rewrite length_insert in Hl. repeat split; try assumption.
      exists j. rewrite Hkeep by lia.
      rewrite (list_lookup_total_correct _ _ _ (Hin m Hold)).
      apply list_lookup_insert_eq. lia.
    + destruct (IH (S j) (<[j := pool !!! m]> best) _ _ (m :: consumed) Hc' Hne')
        as (best' & h' & Hrun & Hl & k & Hk).
      * now constructor.
      * intros i [->|Hi]%elem_of_cons.
        -- now apply list_lookup_insert_eq.
        -- destruct (decide (m = i)) as [->|Hmi]; [now apply list_lookup_insert_eq|].
           rewrite list_lookup_insert_ne by assumption. now apply Hin.
      * rewrite length_insert. cbn. lia.
      * rewrite length_insert. lia.
      * exists best', h'. rewrite length_insert in Hl. eauto.
Qed.

(** A pass during which no distance is NaN is the greedy pass of the
    specification; vertex [j + k] receives the [k]-th entry. *)
Lemma fba_loop_greedy c pairs : forall j best h pool,
  h !! c = Some (ArrF pool) -> pool <> [] ->
  nan_free pairs pool = true ->
  j + length pairs <= length best ->
  exists entries pool',
    fba_loop inf_to_int64 c pairs j best h =
      (Ok (take j best ++ entries ++ drop (j + length pairs) best), <[c := ArrF pool']> h) /\
    greedy_pass pairs pool entries pool'.
Proof.
  induction pairs as [|[vertex normal] rest IH]; intros j best h pool Hc Hne Hfree Hj.
  - exists [], pool. cbn. run. rewrite Nat.add_0_r, take_drop.
    rewrite list_insert_id by assumption. split; [reflexivity | constructor].
  - cbn in Hfree, Hj. apply andb_true_iff in Hfree as [Hnan Hfree].
    destruct (np_argmin_first_min (abs_distances normal vertex pool)) as (m & Hm & Hfirst).
    { intros E. apply (f_equal length) in E. rewrite abs_distances_length in E.
      destruct pool; [congruence | discriminate]. }
    { apply Forall_forall. intros d Hd.
      rewrite forallb_forall in Hnan. apply negb_true_iff, Hnan, list_elem_of_In, Hd. }
    rewrite Hm in Hfree.
    assert (c < length h) as Hcl by (eapply lookup_lt_Some; eassumption).
    destruct (IH (S j) (<[j := pool !!! m]> best)
                (<[c := ArrF (<[m := sentinel]> pool)]> h) (<[m := sentinel]> pool))
      as (entries & pool' & Hrun & Hpass).
    { now apply list_lookup_insert_eq. }
    { intros E. apply (f_equal length) in E. rewrite length_insert in E.
      destruct pool; [congruence | discriminate]. }
    { assumption. }
    { rewrite length_insert. lia. }
    exists (pool !!! m :: entries), pool'. split; [|now econstructor].
    cbn. unfold mbind at 1, M_bind.
    rewrite (fba_iteration_float _ _ _ _ _ _ _ _ _ Hc Hm), Hrun.
    rewrite list_insert_insert_eq. f_equal. f_equal.
    rewrite (take_S_r _ _ (pool !!! m)) by (apply list_lookup_insert_eq; lia).
    rewrite take_insert_ge by lia. rewrite drop_insert_lt by lia.
    rewrite <- app_assoc. cbn. now rewrite Nat.add_succ_r.
Qed.

(** The result has one entry per normal whenever the pass completes. *)
Lemma fba_loop_length c pairs : forall j best h best' h',
  fba_loop inf_to_int64 c pairs j best h = (Ok best', h') -> length best' = length best.
Proof.
  induction pairs as [|[vertex normal] rest IH]; intros j best h best' h'; cbn.
  - run. now intros [= <- _].
  - unfold mbind at 1, M_bind.
    destruct (fba_iteration inf_to_int64 c j vertex normal best h) as [[b|e] h1] eqn:E;
      [|discriminate].
    intros Hrun%IH. rewrite Hrun. revert E. unfold fba_iteration. run.
    destruct (array_points (h !!! c)); [|discriminate]. cbn.
    destruct (np_argmin _); [|discriminate]. cbn.
    destruct (setitem_inf _ _ _); [|discriminate].
    intros [= <- _]. apply length_insert.
Qed.

Lemma find_best_approximations_length c verts normals h best h' :
  find_best_approximations inf_to_int64 c verts normals h = (Ok best, h') ->
  length best = length normals.
Proof.
  unfold find_best_approximations. intros Hrun%fba_loop_length.
  now rewrite length_map in Hrun.
Qed.
End Exhaustion.

(** ** The claims on the projector *)

Section ProjectorClaims.
Local Open Scope nat_scope.
Local Open Scope float_scope.




(** C3, as the code has it. A float64 pool with fewer points than the mesh
    has vertices, every normal of a norm that is not zero (a zero norm stops
    the compiled function with ZeroDivisionError): an empty pool fails on
    the first vertex with the ValueError of [np.argmin] on an empty
    sequence; a non-empty pool raises nothing, and the result has one entry
    per vertex, one of them at least being the sentinel of infinite
    coordinates. *)
Theorem pool_exhaustion_raises_nothing (inf_to_int64 : res Z) c verts normals h pool :
  h !! c = Some (ArrF pool) ->
  length verts = length normals ->
  (length pool < length verts)%nat ->
  forallb norm_nonzero normals = true ->
  match pool with
  | [] =>
      fst (find_best_approximations inf_to_int64 c verts normals h) =
        Raise (ValueError "attempt to get argmin of an empty sequence")
  | _ :: _ =>
      exists best,
        fst (find_best_approximations inf_to_int64 c verts normals h) = Ok best /\
        length best = length verts /\ sentinel ∈ best
  end.
Proof.
  intros Hc Hvn Hlt _. unfold find_best_approximations.
  destruct pool as [|p pool].
  - destruct verts as [|v verts]; [cbn in Hlt; lia|].
    destruct normals as [|n normals]; [discriminate|].
    cbn. unfold mbind at 1, M_bind. now rewrite (fba_iteration_empty _ _ _ _ _ _ _ Hc).
  - destruct (fba_loop_exhausts inf_to_int64 c (zip verts normals) 0
                (map (fun _ => (0, 0, 0)) normals) h (p :: pool) [] Hc)
      as (best & h' & Hrun & Hl & k & Hk).
    + discriminate.
    + constructor.
    + intros i Hi. now apply elem_of_nil in Hi.
    + rewrite length_zip, <- Hvn, Nat.min_id. cbn in *. lia.
    + rewrite length_zip, length_map, <- Hvn, Nat.min_id. lia.
    + exists best. rewrite Hrun. rewrite length_map in Hl.
      repeat split; [congruence|]. eapply list_elem_of_lookup_2, Hk.
Qed.

Lemma pool_exhaustion_raises_nothing_witness :
  exists best,
    fst (find_best_approximations numpy_inf_to_int64 0%nat
           [(0, 0, 0); (5, 0, 0)] [(1, 1, 1); (1, 1, 1)] [ArrF [(0, 0, 0)]]) = Ok best /\
    length best = 2%nat /\ sentinel ∈ best.
Proof.
  apply (pool_exhaustion_raises_nothing numpy_inf_to_int64 0%nat
           [(0, 0, 0); (5, 0, 0)] [(1, 1, 1); (1, 1, 1)] [ArrF [(0, 0, 0)]] [(0, 0, 0)]).
  - reflexivity.
  - reflexivity.
  - cbn. lia.
  - reflexivity.
Defined.

(** C3 as stated fails: a pool of one point under a mesh of two vertices
    raises nothing; the second vertex is handed the sentinel. *)
Lemma pool_exhaustion_counterexample :
  let pool := [(0, 0, 0)] in
  let verts := [(0, 0, 0); (5, 0, 0)] in
  let normals := [(1, 1, 1); (1, 1, 1)] in
  (length pool < length verts)%nat /\
  find_best_approximations numpy_inf_to_int64 0%nat verts normals [ArrF pool] =
    (Ok [(0, 0, 0); sentinel], [ArrF [sentinel]]).
Proof. split; [cbn; lia | vm_compute; reflexivity]. Qed.




(** C5 (defect in the code). Three points, three vertices with normal
    (1,0,0): slot 0 is consumed by the first vertex and selected again by
    the second and the third, whose entries are the sentinel. The result has
    three entries, but they are neither distinct nor all points of the
    cloud. *)
Theorem projector_reuses_slot (inf_to_int64 : res Z) :
  let pool := [(0, 0, 0); (1, 0, 0); (2, 0, 0)] in
  let verts := [(0, 0, 0); (1, 0, 0); (2, 0, 0)] in
  let normals := [(1, 0, 0); (1, 0, 0); (1, 0, 0)] in
  (length verts <= length pool)%nat /\
  find_best_approximations inf_to_int64 0%nat verts normals [ArrF pool] =
    (Ok [(0, 0, 0); sentinel; sentinel], [ArrF [sentinel; (1, 0, 0); (2, 0, 0)]]) /\
  ~ NoDup [(0, 0, 0); sentinel; sentinel] /\
  sentinel ∉ pool.
Proof.
  split; [|split; [|split]].
  - cbn. lia.
  - vm_compute. reflexivity.
  - intros Hnd. apply NoDup_cons in Hnd as [_ Hnd]. apply NoDup_cons in Hnd as [Hnot _].
    apply Hnot. constructor.
  - intros Hin. repeat (apply elem_of_cons in Hin as [Heq|Hin]; [discriminate Heq|]).
    now apply elem_of_nil in Hin.
Qed.

(** The pool [alphashape] hands over is an int64 array. Taken element by
    element as NumPy does, the first overwrite raises OverflowError; stored
    by a compiled cast, the sentinel is the least int64, whose distance is
    finite: with the normal (1,-1,0) it cancels to 0 and the consumed slot
    is selected again, as on a float64 pool. *)
Example integer_pool_sentinel :
  let pool := [(0, 0, 0); (3, 3, 0)]%Z in
  let verts := [(0, 0, 0); (3, 3, 0)] in
  let normals := [(1, -1, 0); (1, -1, 0)] in
  find_best_approximations numpy_inf_to_int64 0%nat verts normals [ArrI pool] =
    (Raise (OverflowError "cannot convert float infinity to integer"), [ArrI pool]) /\
  find_best_approximations (Ok F.int64_min) 0%nat verts normals [ArrI pool] =
    (Ok [(0, 0, 0); ipoint_to_point (F.int64_min, F.int64_min, F.int64_min)],
     [ArrI [(F.int64_min, F.int64_min, F.int64_min); (3, 3, 0)%Z]]).
Proof. split; vm_compute; reflexivity. Qed.
End ProjectorClaims.

(** ** The coordinate transform *)

Section Transform.
Local Open Scope nat_scope.
Local Open Scope float_scope.
Import FloatOrder.

Lemma np_argmin_pair a b :
  is_nan a = false -> is_nan b = false ->
  np_argmin [a; b] = Ok (if b <? a then 1%nat else 0%nat).
Proof.
  intros Ha Hb. cbn. rewrite Ha, Hb.
  destruct (a <=? b) eqn:E; cbn.
  - destruct (b <? a) eqn:E'; [|reflexivity].
    apply ltb_not_leb in E'. congruence.
  - now rewrite (leb_false _ _ Ha Hb E).
Qed.

Lemma py_int_finite x : is_finite x = true -> F.py_int x = Ok (F.trunc x).
Proof.
  unfold is_finite, F.py_int. destruct (is_nan x); [discriminate|].
  destruct (is_infinity x); [discriminate | reflexivity].
Qed.

Lemma least_magnitude_finite a b :
  is_finite a = true -> is_finite b = true -> is_finite (least_magnitude a b) = true.
Proof. intros Ha Hb. unfold least_magnitude. now destruct (abs b <? abs a). Qed.

Lemma min_absolute_value_finite x1 y1 z1 x2 y2 z2 :
  is_finite x1 = true -> is_finite y1 = true -> is_finite z1 = true ->
  is_finite x2 = true -> is_finite y2 = true -> is_finite z2 = true ->
  _min_absolute_value (x1, y1, z1) (x2, y2, z2) =
    Ok (F.trunc (least_magnitude x1 x2), F.trunc (least_magnitude y1 y2),
        F.trunc (least_magnitude z1 z2)).
Proof.
  intros Hx1 Hy1 Hz1 Hx2 Hy2 Hz2. unfold _min_absolute_value. cbn [map].
  rewrite !np_argmin_pair by (rewrite abs_nan; now apply finite_not_nan). cbn.
  assert (forall a b, is_finite a = true -> is_finite b = true ->
            F.py_int ([a; b] !!! (if abs b <? abs a then 1%nat else 0%nat))
            = Ok (F.trunc (least_magnitude a b))) as Hentry.
  { intros a b Ha Hb. rewrite <- (py_int_finite _ (least_magnitude_finite a b Ha Hb)).
    unfold least_magnitude. now destruct (abs b <? abs a). }
  now rewrite !Hentry.
Qed.

Lemma fold_maximum_in xs : forall x, fold_left F.maximum xs x ∈ x :: xs.
Proof.
  induction xs as [|y xs IH]; intros x; cbn.
  - constructor.
  - specialize (IH (F.maximum x y)). apply elem_of_cons in IH as [->|IH].
    + unfold F.maximum. destruct (_ || _); [constructor | do 2 constructor].
    + now do 2 constructor.
Qed.

Lemma fold_minimum_in xs : forall x, fold_left F.minimum xs x ∈ x :: xs.
Proof.
  induction xs as [|y xs IH]; intros x; cbn.
  - constructor.
  - specialize (IH (F.minimum x y)). apply elem_of_cons in IH as [->|IH].
    + unfold F.minimum. destruct (_ || _); [constructor | do 2 constructor].
    + now do 2 constructor.
Qed.

Lemma np_amax_finite xs :
  xs <> [] -> Forall (fun x => is_finite x = true) xs ->
  exists m, np_amax xs = Ok m /\ is_finite m = true.
Proof.
  destruct xs as [|x xs]; [congruence|]. intros _ Hall. eexists. split; [reflexivity|].
  rewrite Forall_forall in Hall. apply Hall, fold_maximum_in.
Qed.

Lemma np_amin_finite xs :
  xs <> [] -> Forall (fun x => is_finite x = true) xs ->
  exists m, np_amin xs = Ok m /\ is_finite m = true.
Proof.
  destruct xs as [|x xs]; [congruence|]. intros _ Hall. eexists. split; [reflexivity|].
  rewrite Forall_forall in Hall. apply Hall, fold_minimum_in.
Qed.

(** On a non-empty cloud whose voxel-space coordinates are finite, the
    coordinate transform raises nothing. *)
Lemma coordinate_transform_ok rows :
  rows <> [] ->
  forallb finite3 (matmul inv_transform_scale (hstack_ones rows)) = true ->
  is_ok (coordinate_transform (ArrF rows)) = true.
Proof.
  intros Hne Hfin. rewrite forallb_forall in Hfin. unfold coordinate_transform, amax_rows3, amin_rows3.
  unfold mbind, mret, res_bind, res_ret. cbv beta iota delta [hstack_rows].
  set (vc := matmul inv_transform_scale (hstack_ones rows)) in *.
  assert (vc <> []) as Hvc.
  { subst vc. unfold matmul, hstack_ones. destruct rows; [congruence | discriminate]. }
  assert (forall f : vec4 float -> float,
            (forall v, finite3 v = true -> is_finite (f v) = true) ->
            map f vc <> [] /\ Forall (fun x => is_finite x = true) (map f vc)) as Hproj.
  { intros f Hf. split.
    - destruct vc; [congruence | discriminate].
    - apply Forall_map, Forall_forall. intros v Hv. apply Hf, Hfin, list_elem_of_In, Hv. }
  destruct (Hproj coord0) as [N1 F1];
    [intros [[[? ?] ?] ?] [[? ?]%andb_true_iff ?]%andb_true_iff; assumption|].
  destruct (Hproj coord1) as [N2 F2];
    [intros [[[? ?] ?] ?] [[? ?]%andb_true_iff ?]%andb_true_iff; assumption|].
  destruct (Hproj coord2) as [N3 F3];
    [intros [[[? ?] ?] ?] [[? ?]%andb_true_iff ?]%andb_true_iff; assumption|].
  destruct (np_amax_finite _ N1 F1) as (mx & -> & Hmx).
  destruct (np_amax_finite _ N2 F2) as (my & -> & Hmy).
  destruct (np_amax_finite _ N3 F3) as (mz & -> & Hmz).
  destruct (np_amin_finite _ N1 F1) as (nx & -> & Hnx).
  destruct (np_amin_finite _ N2 F2) as (ny & -> & Hny).
  destruct (np_amin_finite _ N3 F3) as (nz & -> & Hnz).
  cbv beta iota. now rewrite min_absolute_value_finite.
Qed.

(** The shift of the coordinate transform is [_min_absolute_value] of the
    per-axis extrema of the voxel-space cloud. *)
Lemma coordinate_transform_shift c max_vals min_vals shift voxel_coords :
  coordinate_transform c = Ok (max_vals, min_vals, shift, voxel_coords) ->
  exists rows,
    hstack_rows c = Ok rows /\
    amax_rows3 (matmul inv_transform_scale (hstack_ones rows)) = Ok max_vals /\
    amin_rows3 (matmul inv_transform_scale (hstack_ones rows)) = Ok min_vals /\
    _min_absolute_value max_vals min_vals = Ok shift.
Proof.
  unfold coordinate_transform. unfold mbind, mret, res_bind, res_ret.
  destruct (hstack_rows c) as [rows|]; [|discriminate].
  destruct (amax_rows3 _) as [mx|] eqn:Emax; [|discriminate].
  destruct (amin_rows3 _) as [mn|] eqn:Emin; [|discriminate].
  destruct (_min_absolute_value mx mn) as [sh|] eqn:E; [|discriminate].
  intros [= <- <- <- _]. exists rows. auto.
Qed.
End Transform.

(** ** The store *)

Section Store.
Variable marching_cubes : grid -> res mesh.
Variable inf_to_int64 : res Z.
Local Open Scope nat_scope.

Lemma touches_only_refl c (h : heap) : touches_only c h h.
Proof.
  destruct (decide (c < length h)) as [Hlt|Hge].
  - exists (h !!! c). symmetry. apply list_insert_id, list_lookup_lookup_total_lt, Hlt.
  - exists (ArrF []). symmetry. apply list_insert_ge. lia.
Qed.

Lemma touches_only_trans c (h1 h2 h3 : heap) :
  touches_only c h1 h2 -> touches_only c h2 h3 -> touches_only c h1 h3.
Proof. intros [a ->] [b ->]. exists b. apply list_insert_insert_eq. Qed.

(** An iteration of the projector writes to the pool it was given, nowhere else. *)
Lemma fba_iteration_touches c j vertex normal best h :
  touches_only c h (snd (fba_iteration inf_to_int64 c j vertex normal best h)).
Proof.
  unfold fba_iteration. run.
  destruct (array_points (h !!! c)); cbn; [|apply touches_only_refl].
  destruct (np_argmin _); cbn; [|apply touches_only_refl].
  destruct (setitem_inf _ _ _) as [a'|e]; cbn; [|apply touches_only_refl].
  now exists a'.
Qed.

Lemma fba_loop_touches c pairs : forall j best h,
  touches_only c h (snd (fba_loop inf_to_int64 c pairs j best h)).
Proof.
  induction pairs as [|[vertex normal] rest IH]; intros j best h; cbn.
  - apply touches_only_refl.
  - unfold mbind at 1, M_bind.
    pose proof (fba_iteration_touches c j vertex normal best h) as Hstep.
    destruct (fba_iteration inf_to_int64 c j vertex normal best h) as [[b|e] h1]; cbn in *.
    + eapply touches_only_trans; [exact Hstep | apply IH].
    + exact Hstep.
Qed.

(** The array in the last cell of the store can change; the cells before it
    are the store the caller had. *)
Lemma touches_only_fresh (h : heap) a h' :
  touches_only (length h) (h ++ [a]) h' -> exists a', h' = h ++ [a'].
Proof.
  intros [a' ->]. exists a'.
  rewrite insert_app_r_alt by lia. now rewrite Nat.sub_diag.
Qed.

(** The voxelizer allocates one array, the integer cloud, and hands back its
    location. *)
Lemma voxelizer_alloc max_vals min_vals voxel_coords (h : heap) :
  match voxelizer max_vals min_vals voxel_coords h with
  | (Ok (c, _), h') => c = length h /\ exists a, h' = h ++ [a]
  | (Raise _, h') => h' = h \/ exists a, h' = h ++ [a]
  end.
Proof.
  unfold voxelizer. destruct max_vals as [[max0 max1] max2], min_vals as [[min0 min1] min2].
  run. destruct (_ || _); cbn; [now left|].
  destruct (fill_voxels _ _); cbn; eauto.
Qed.

Lemma alphashape_locals_extends coords (h : heap) :
  exists fresh, snd (alphashape_locals marching_cubes inf_to_int64 coords h) = h ++ fresh.
Proof.
  unfold alphashape_locals. unfold mbind at 1, M_bind, load.
  unfold mbind at 1, M_bind, lift.
  destruct (coordinate_transform (h !!! coords)) as [[[[max_vals min_vals] shift] vc]|e];
    [|exists []; cbn; now rewrite app_nil_r].
  unfold mbind at 1, M_bind.
  pose proof (voxelizer_alloc max_vals min_vals vc h) as Hvox.
  destruct (voxelizer max_vals min_vals vc h) as [[[c voxels]|e] h1].
  - destruct Hvox as [-> [a ->]].
    unfold mbind at 1, M_bind.
    destruct (marching_cubes voxels) as [m|e]; [|now exists [a]].
    unfold mbind at 1, M_bind.
    pose proof (fba_loop_touches (length h) (zip (verts m) (normals m)) 0
                  (map (fun _ => (0%float, 0%float, 0%float)) (normals m)) (h ++ [a])) as Htouch.
    unfold find_best_approximations.
    destruct (fba_loop _ _ _ _ _ _) as [[best|e] h2]; cbn in *;
      apply touches_only_fresh in Htouch as [a' ->]; now exists [a'].
  - cbn. destruct Hvox as [->|[a ->]]; [exists []; now rewrite app_nil_r | now exists [a]].
Qed.
End Store.

(** ** The claims on the pipeline *)

Section PipelineClaims.
Variable marching_cubes : grid -> res mesh.
Variable inf_to_int64 : res Z.
Local Open Scope nat_scope.
Local Open Scope float_scope.

(** C1 (defect in the code). Whatever the cloud and the mesh, whenever the
    pipeline completes and has computed [approx_coords], the real-space
    points of the approximation, [alphashape] returns None: the function
    ends without a return statement, against its own docstring. *)
Theorem alphashape_returns_None coords nlayers plot h :
  fst (alphashape marching_cubes inf_to_int64 coords nlayers plot h) =
    match fst (alphashape_locals marching_cubes inf_to_int64 coords h) with
    | Ok approx_coords => Ok PyNone
    | Raise e => Raise e
    end.
Proof.
  unfold alphashape, mbind, M_bind.
  now destruct (alphashape_locals marching_cubes inf_to_int64 coords h) as [[approx|e] h'].
Qed.

(** C6, as the code has it. An empty cloud stops the pipeline in the
    coordinate transform, before the voxelizer, with the ValueError of
    [np.amax] on an array of size zero (no check of the input exists, and no
    array has been created); on a non-empty cloud whose voxel-space
    coordinates are finite the coordinate transform raises nothing. *)
Theorem empty_cloud_stops_in_transform coords nlayers plot h rows :
  h !! coords = Some (ArrF rows) ->
  forallb finite3 (matmul inv_transform_scale (hstack_ones rows)) = true ->
  match rows with
  | [] =>
      coordinate_transform (ArrF rows) =
        Raise (ValueError "zero-size array to reduction operation maximum which has no identity") /\
      alphashape marching_cubes inf_to_int64 coords nlayers plot h =
        (Raise (ValueError "zero-size array to reduction operation maximum which has no identity"), h)
  | _ :: _ => is_ok (coordinate_transform (ArrF rows)) = true
  end.
Proof.
  intros Hc Hfin. destruct rows as [|p rows].
  - split; [reflexivity|].
    unfold alphashape, alphashape_locals. run.
    now rewrite (list_lookup_total_correct _ _ _ Hc).
  - now apply coordinate_transform_ok.
Qed.
End PipelineClaims.

Section PipelineRuns.
Local Open Scope nat_scope.
Local Open Scope float_scope.

(** A run of C1 that completes: the cloud (0,0,0), (25,0,0), (50,25,0) with
    a mesh of two vertices and the sentinel stored as the least int64. The
    points (0,0,0) and (50,25,0) are computed, None is returned. *)
Example alphashape_run :
  let cloud := [(0, 0, 0); (25, 0, 0); (50, 25, 0)] in
  fst (alphashape_locals two_vertex_mesh (Ok F.int64_min) 0%nat [ArrF cloud]) =
    Ok [(0, 0, 0, 1); (50, 25, 0, 1)] /\
  fst (alphashape two_vertex_mesh (Ok F.int64_min) 0%nat 1%Z false [ArrF cloud]) = Ok PyNone.
Proof. split; vm_compute; reflexivity. Qed.

Lemma empty_cloud_stops_in_transform_witness :
  is_ok (coordinate_transform (ArrF [(15, 0, 0); (40, 0, 0)])) = true.
Proof.
  apply (empty_cloud_stops_in_transform two_vertex_mesh numpy_inf_to_int64 0%nat 1%Z false
           [ArrF [(15, 0, 0); (40, 0, 0)]] [(15, 0, 0); (40, 0, 0)]).
  - reflexivity.
  - vm_compute. reflexivity.
Defined.

(** C6 as stated fails: the empty cloud is stopped by a ValueError from
    NumPy, not by an InvalidInput error, and the one-point cloud (15,0,0),
    finite and non-empty, fails in the voxelizer with an IndexError (the
    defect of C7). *)
Lemma invalid_input_counterexample :
  (exists e,
     fst (alphashape two_vertex_mesh numpy_inf_to_int64 0%nat 1%Z false [ArrF []]) = Raise e /\
     exn_name e = "ValueError"%string /\ exn_name e <> "InvalidInput"%string) /\
  (exists e,
     fst (alphashape two_vertex_mesh numpy_inf_to_int64 0%nat 1%Z false [ArrF [(15, 0, 0)]]) = Raise e /\
     exn_name e = "IndexError"%string).
Proof.
  split; eexists; (split; [vm_compute; reflexivity|]).
  - split; [reflexivity | discriminate].
  - reflexivity.
Qed.
End PipelineRuns.

Section VoxelizerClaims.
Variable marching_cubes : grid -> res mesh.
Variable inf_to_int64 : res Z.
Local Open Scope float_scope.

(** C7 (defect in the code). The cloud (15,0,0), (40,0,0), two measurements
    25 microns apart: the voxel-space extent is 1, so the grid has shape
    (2,1,1), but the shift is int(0.6) = 0 and the coordinates 0.6 and 1.6
    round to 1 and 2. The index 2 is not a cell of the grid: the write
    raises IndexError before the grid is padded, instead of every rounded
    coordinate indexing a cell that is set to 1. *)
Theorem voxel_index_out_of_bounds :
  let cloud := [(15, 0, 0); (40, 0, 0)] in
  alphashape marching_cubes inf_to_int64 0%nat 1%Z false [ArrF cloud] =
    (Raise (IndexError "index is out of bounds for axis"),
     [ArrF cloud; ArrI [(1, 0, 0); (2, 0, 0)]%Z]) /\
  np_zeros3 (2, 1, 1)%Z = Ok [[[0]]; [[0]]] /\
  setitem3 [[[0]]; [[0]]] (1, 0, 0)%Z 1 = Ok [[[0]]; [[1]]] /\
  setitem3 [[[0]]; [[1]]] (2, 0, 0)%Z 1 = Raise (IndexError "index is out of bounds for axis").
Proof. split; [|split; [|split]]; vm_compute; reflexivity. Qed.

(** The same defect on a cloud of negative coordinates: (-75,0,0) and
    (-25,0,0) are two voxels apart, the shift is -1, the rounded coordinates
    are -2 and 0, and the negative index wraps around: the cells 1 and 0 of
    an axis of size 3 are set, two neighbours. *)
Example voxel_index_wraps_around :
  let cloud := [(-75, 0, 0); (-25, 0, 0)] in
  match coordinate_transform (ArrF cloud) with
  | Ok (max_vals, min_vals, shift, voxel_coords) =>
      shift = (-1, 0, 0)%Z /\
      fst (voxelizer max_vals min_vals voxel_coords [ArrF cloud]) =
        Ok (1%nat, np_pad3 (3, 1, 1)%Z [[[1]]; [[1]]; [[0]]])
  | Raise _ => False
  end.
Proof. vm_compute. split; reflexivity. Qed.
End VoxelizerClaims.

Section TransformClaims.
Local Open Scope float_scope.

(** C8, as the code has it. The shift is, per axis, the truncation toward
    zero ([int()]) of whichever of the maximum and the minimum has the
    smaller absolute value, ties in favour of the maximum. *)
Theorem shift_is_truncated_least_magnitude x1 y1 z1 x2 y2 z2 :
  is_finite x1 = true -> is_finite y1 = true -> is_finite z1 = true ->
  is_finite x2 = true -> is_finite y2 = true -> is_finite z2 = true ->
  _min_absolute_value (x1, y1, z1) (x2, y2, z2) =
    Ok (F.trunc (least_magnitude x1 x2), F.trunc (least_magnitude y1 y2),
        F.trunc (least_magnitude z1 z2)).
Proof. apply min_absolute_value_finite. Qed.

Lemma shift_is_truncated_least_magnitude_witness :
  _min_absolute_value (8, -2, 3) (2, -7, -3) =
    Ok (F.trunc (least_magnitude 8 2), F.trunc (least_magnitude (-2) (-7)),
        F.trunc (least_magnitude 3 (-3))).
Proof.
  apply (shift_is_truncated_least_magnitude 8 (-2) 3 2 (-7) (-3)); reflexivity.
Defined.

(** C8 as stated fails: for the cloud (15,0,0), (40,0,0) the extrema on the
    first axis are 1.6 and 0.6; the one of smaller absolute value is 0.6,
    the shift is 0. *)
Lemma shift_counterexample :
  match coordinate_transform (ArrF [(15, 0, 0); (40, 0, 0)]) with
  | Ok (max_vals, min_vals, shift, _) =>
      shift.1.1 = 0%Z /\
      least_magnitude max_vals.1.1 min_vals.1.1 = min_vals.1.1 /\
      (F.of_Z shift.1.1 =? least_magnitude max_vals.1.1 min_vals.1.1) = false /\
      (0.5 <? least_magnitude max_vals.1.1 min_vals.1.1) = true
  | Raise _ => False
  end.
Proof. vm_compute. repeat split. Qed.
End TransformClaims.

Section AffineClaims.
Local Open Scope float_scope.

(** The voxel-space cloud of the coordinate transform is [forward] applied
    to every point, and the transform back is [inverse]. *)
Lemma coordinate_transform_forward rows max_vals min_vals shift voxel_coords :
  coordinate_transform (ArrF rows) = Ok (max_vals, min_vals, shift, voxel_coords) ->
  voxel_coords = map (forward shift) (hstack_ones rows).
Proof.
  unfold coordinate_transform. cbn [hstack_rows]. unfold mbind, mret, res_bind, res_ret.
  destruct (amax_rows3 _); [|discriminate].
  destruct (amin_rows3 _); [|discriminate].
  destruct (_min_absolute_value _ _); [|discriminate].
  intros [= _ _ <- <-]. unfold matmul. now rewrite map_map.
Qed.

Lemma transform_back_inverse shift rows :
  transform_back shift rows = map (inverse shift) (hstack_ones rows).
Proof. reflexivity. Qed.

(** In float64 the round trip is the identity up to rounding only: the
    point (7,3,1) comes back with a first coordinate 2^-50 above 7. *)
Example float_round_trip :
  let '(x, y, z, w) := inverse (0, 0, 0)%Z (forward (0, 0, 0)%Z (7, 3, 1, 1)%float) in
  ((x =? 7) = false /\ x - 7 = Z.ldexp 1 (-50) /\ y = 3 /\ z = 1 /\ w = 1)%float.
Proof. vm_compute. repeat split. Qed.
End AffineClaims.

Section FrameClaims.
Variable marching_cubes : grid -> res mesh.
Variable inf_to_int64 : res Z.
Local Open Scope nat_scope.

(** C10. Running [alphashape] leaves every array of the caller as it was:
    the store afterwards is the store before, followed by arrays created
    during the run (so the coordinate array and the six tensor arrays are
    unchanged, whether the run completes or raises). The projector writes
    to the array it is given and to no other, and the array [alphashape]
    gives it is the integer cloud the voxelizer has just created. *)
Theorem caller_arrays_unchanged coords nlayers plot (h : heap) :
  (exists fresh, snd (alphashape marching_cubes inf_to_int64 coords nlayers plot h) = h ++ fresh) /\
  (forall c verts normals (h0 : heap),
     touches_only c h0 (snd (find_best_approximations inf_to_int64 c verts normals h0))) /\
  (forall max_vals min_vals voxel_coords,
     match fst (voxelizer max_vals min_vals voxel_coords h) with
     | Ok (c, _) => c = length h
     | Raise _ => True
     end).
Proof.
  split; [|split].
  - destruct (alphashape_locals_extends marching_cubes inf_to_int64 coords h) as [fresh Hfresh].
    exists fresh. rewrite <- Hfresh. unfold alphashape, mbind, M_bind.
    now destruct (alphashape_locals _ _ _ _) as [[approx|e] h'].
  - intros c verts normals h0. apply fba_loop_touches.
  - intros max_vals min_vals voxel_coords.
    pose proof (voxelizer_alloc max_vals min_vals voxel_coords h) as Hvox.
    destruct (voxelizer _ _ _ _) as [[[c voxels]|e] h']; cbn; [apply Hvox | exact I].
Qed.
End FrameClaims.

(** ** Infinities and NaN in float arithmetic *)

Module FloatFacts.
Import FloatOrder.
Local Open Scope float_scope.

Lemma nonfinite_mul_infinity x : nonfinite (Prim2SF (x * infinity)) = true.
Proof.
  rewrite FloatAxioms.mul_spec. change (Prim2SF infinity) with (S754_infinity false).
  now destruct (Prim2SF x) as [s|s| |s m e].
Qed.

Lemma nonfinite_add_l x y : nonfinite (Prim2SF x) = true -> nonfinite (Prim2SF (x + y)) = true.
Proof.
  rewrite FloatAxioms.add_spec.
  destruct (Prim2SF x) as [s|s| |s m e]; try discriminate; intros _;
    destruct (Prim2SF y) as [t|t| |t m' e']; try reflexivity; now destruct s, t.
Qed.

Lemma nonfinite_div_l x y : nonfinite (Prim2SF x) = true -> nonfinite (Prim2SF (x / y)) = true.
Proof.
  rewrite FloatAxioms.div_spec.
  destruct (Prim2SF x) as [s|s| |s m e]; try discriminate; intros _;
    now destruct (Prim2SF y) as [t|t| |t m' e'].
Qed.

Lemma is_infinity_spec x : is_infinity x = true <-> exists s, Prim2SF x = S754_infinity s.
Proof.
  unfold is_infinity. rewrite FloatAxioms.eqb_spec, FloatAxioms.abs_spec.
  change (Prim2SF infinity) with (S754_infinity false).
  destruct (Prim2SF x) as [s|s| |s m e]; cbn; split; try discriminate; eauto;
    intros [t [=]].
Qed.

Lemma nonfinite_not_finite x : nonfinite (Prim2SF x) = true -> is_finite x = false.
Proof.
  intros Hx. unfold is_finite.
  destruct (is_nan x) eqn:En; [reflexivity|]. cbn.
  apply is_nan_false in En. apply negb_false_iff, is_infinity_spec.
  destruct (Prim2SF x) as [s|s| |s m e]; try discriminate; eauto. congruence.
Qed.

Lemma finite_not_nonfinite x : is_finite x = true -> nonfinite (Prim2SF x) = false.
Proof.
  intros Hx. destruct (nonfinite (Prim2SF x)) eqn:E; [|reflexivity].
  apply nonfinite_not_finite in E. congruence.
Qed.

(** No finite float is above the absolute value of an infinity. *)
Lemma abs_nonfinite_not_below x y :
  nonfinite (Prim2SF x) = true -> is_finite y = true -> (abs x <=? y) = false.
Proof.
  intros Hx Hy. apply Bool.not_true_iff_false. intros (Nx & Ny & G)%leb_true.
  rewrite FloatAxioms.abs_spec in Nx, G. apply finite_not_nonfinite in Hy.
  destruct (Prim2SF x) as [s|s| |s m e]; try discriminate; cbn in *; [|congruence].
  destruct (Prim2SF y) as [t|t| |t m' e']; try discriminate; cbn in G;
    try (destruct t); now apply G.
Qed.

Lemma mul_nan_r x y : is_nan y = true -> is_nan (x * y) = true.
Proof.
  intros Hy. apply Bool.not_false_iff_true. intros N%is_nan_false.
  rewrite FloatAxioms.mul_spec in N.
  assert (Prim2SF y = S754_nan) as E.
  { destruct (Prim2SF y) eqn:Ey; try reflexivity;
      exfalso; apply Bool.not_false_iff_true in Hy; apply Hy, is_nan_false; congruence. }
  rewrite E in N. now destruct (Prim2SF x).
Qed.

Lemma add_nan_l x y : is_nan x = true -> is_nan (x + y) = true.
Proof.
  intros Hx. apply Bool.not_false_iff_true. intros N%is_nan_false.
  rewrite FloatAxioms.add_spec in N.
  assert (Prim2SF x = S754_nan) as E.
  { destruct (Prim2SF x) eqn:Ex; try reflexivity;
      exfalso; apply Bool.not_false_iff_true in Hx; apply Hx, is_nan_false; congruence. }
  rewrite E in N. now apply N.
Qed.

Lemma add_nan_r x y : is_nan y = true -> is_nan (x + y) = true.
Proof.
  intros Hy. apply Bool.not_false_iff_true. intros N%is_nan_false.
  rewrite FloatAxioms.add_spec in N.
  assert (Prim2SF y = S754_nan) as E.
  { destruct (Prim2SF y) eqn:Ey; try reflexivity;
      exfalso; apply Bool.not_false_iff_true in Hy; apply Hy, is_nan_false; congruence. }
  rewrite E in N. now destruct (Prim2SF x).
Qed.

Lemma leb_nan_r x y : is_nan y = true -> (x <=? y) = false.
Proof.
  intros Hy. apply Bool.not_true_iff_false. intros (_ & Ny & _)%leb_true.
  apply is_nan_false in Ny. congruence.
Qed.

Lemma leb_nan_l x y : is_nan x = true -> (x <=? y) = false.
Proof.
  intros Hx. apply Bool.not_true_iff_false. intros (Nx & _ & _)%leb_true.
  apply is_nan_false in Nx. congruence.
Qed.

Lemma is_finite_spec x : is_finite x = negb (nonfinite (Prim2SF x)).
Proof.
  destruct (nonfinite (Prim2SF x)) eqn:E; cbn.
  - now apply nonfinite_not_finite.
  - unfold is_finite. apply negb_true_iff, orb_false_iff. split.
    + apply is_nan_false. intros N. now rewrite N in E.
    + apply Bool.not_true_iff_false. intros [s Hs]%is_infinity_spec. now rewrite Hs in E.
Qed.

Lemma abs_finite x : is_finite (abs x) = is_finite x.
Proof.
  rewrite !is_finite_spec, FloatAxioms.abs_spec. now destruct (Prim2SF x).
Qed.
End FloatFacts.

(** ** Further properties of the projector *)

Section ProjectorMore.
Variable inf_to_int64 : res Z.
Local Open Scope nat_scope.
Local Open Scope float_scope.
Import FloatOrder FloatFacts.

Lemma fba_iteration_ok c j vertex normal best h b h1 :
  fba_iteration inf_to_int64 c j vertex normal best h = (Ok b, h1) ->
  exists x, b = <[j := x]> best.
Proof.
  unfold fba_iteration. run.
  destruct (array_points (h !!! c)) as [points|]; [|discriminate]. cbn.
  destruct (np_argmin _) as [m|]; [|discriminate]. cbn.
  destruct (setitem_inf _ _ _); [|discriminate].
  intros [= <- _]. eauto.
Qed.

(** A pass writes the entries [j] to [j + length pairs - 1] and no other. *)
Lemma fba_loop_outside c pairs : forall j best h best' h',
  fba_loop inf_to_int64 c pairs j best h = (Ok best', h') ->
  forall k, k < j \/ j + length pairs <= k -> best' !! k = best !! k.
Proof.
  induction pairs as [|[vertex normal] rest IH]; intros j best h best' h'; cbn.
  - run. now intros [= <- _].
  - unfold mbind at 1, M_bind.
    destruct (fba_iteration inf_to_int64 c j vertex normal best h) as [[b|e] h1] eqn:E;
      [|discriminate].
    apply fba_iteration_ok in E as [x ->].
    intros Hrun k Hk. rewrite (IH _ _ _ _ _ Hrun) by lia.
    apply list_lookup_insert_ne. lia.
Qed.

(** X1. Whenever the projector completes, whatever the arrays it was given,
    its result has one row per normal. *)
Theorem projector_output_length c verts normals h best h' :
  find_best_approximations inf_to_int64 c verts normals h = (Ok best, h') ->
  length best = length normals.
Proof. apply find_best_approximations_length. Qed.

(** X2. When [verts] has fewer rows than [normals], the pairing stops at the
    shorter one: the rows of the result from [len(verts)] on are still the
    zeros [np.zeros_like] put there. *)
Theorem projector_leaves_unpaired_rows_zero c verts normals h best h' k :
  find_best_approximations inf_to_int64 c verts normals h = (Ok best, h') ->
  length verts <= k < length normals ->
  best !! k = Some (0, 0, 0).
Proof.
  unfold find_best_approximations. intros Hrun [Hk1 Hk2].
  rewrite (fba_loop_outside _ _ _ _ _ _ _ Hrun).
  - rewrite list_lookup_fmap.
    destruct (normals !! k) eqn:E; [reflexivity|].
    apply lookup_ge_None in E. lia.
  - right. rewrite length_zip. lia.
Qed.

(** In a pass over a float64 pool every slot is its point of the start or
    the sentinel, and every entry written is a point of the start or the
    sentinel. *)
Lemma fba_loop_provenance c (pool0 : list point) pairs : forall j best h pool,
  h !! c = Some (ArrF pool) -> pool <> [] ->
  length pool = length pool0 ->
  (forall i p, pool !! i = Some p -> p = sentinel \/ pool0 !! i = Some p) ->
  exists best' pool',
    fba_loop inf_to_int64 c pairs j best h = (Ok best', <[c := ArrF pool']> h) /\
    length pool' = length pool0 /\
    (forall i p, pool' !! i = Some p -> p = sentinel \/ pool0 !! i = Some p) /\
    (forall k p, j <= k < j + length pairs -> best' !! k = Some p -> p = sentinel \/ p ∈ pool0).
Proof.
  induction pairs as [|[vertex normal] rest IH]; intros j best h pool Hc Hne Hlen Hinv.
  - exists best, pool. cbn. run. rewrite list_insert_id by assumption.
    repeat split; try assumption. intros k p Hk. lia.
  - destruct (np_argmin_bound (abs_distances normal vertex pool)) as (m & Hm & Hlt).
    { intros E. apply (f_equal length) in E. rewrite abs_distances_length in E.
      destruct pool; [congruence | discriminate]. }
    rewrite abs_distances_length in Hlt.
    assert (c < length h) as Hcl by (eapply lookup_lt_Some; eassumption).
    destruct (IH (S j) (<[j := pool !!! m]> best)
                (<[c := ArrF (<[m := sentinel]> pool)]> h) (<[m := sentinel]> pool))
      as (best' & pool' & Hrun & Hl & Hinv' & Hent).
    { now apply list_lookup_insert_eq. }
    { intros E. apply (f_equal length) in E. rewrite length_insert in E.
      destruct pool; [congruence | discriminate]. }
    { now rewrite length_insert. }
    { intros i p Hp. destruct (decide (m = i)) as [->|Hmi].
      - rewrite list_lookup_insert_eq in Hp by assumption. left. congruence.
      - rewrite list_lookup_insert_ne in Hp by assumption. now apply Hinv. }
    exists best', pool'. cbn. unfold mbind at 1, M_bind.
    rewrite (fba_iteration_float _ _ _ _ _ _ _ _ _ Hc Hm), Hrun.
    rewrite list_insert_insert_eq. repeat split; try assumption.
    intros k p Hk Hp. destruct (decide (k = j)) as [->|Hkj].
    + rewrite (fba_loop_outside _ _ _ _ _ _ _ Hrun) in Hp by lia.
      destruct (decide (j < length best)) as [Hjl|Hjl].
      * rewrite list_lookup_insert_eq in Hp by assumption. injection Hp as Hp.
        destruct (Hinv m p) as [Hs|Hin].
        { rewrite <- Hp. now apply list_lookup_lookup_total_lt. }
        { now left. }
        right. eapply list_elem_of_lookup_2, Hin.
      * rewrite list_insert_ge in Hp by lia. apply lookup_lt_Some in Hp. lia.
    + apply (Hent k p); [cbn in Hk; lia | assumption].
Qed.

(** X3. A pass over a non-empty float64 pool with paired vertices and
    normals, no normal of zero norm (which stops the compiled function with
    ZeroDivisionError), never deletes or moves a slot: the pass completes,
    writes to no array of the store but the pool, and the pool keeps its
    size, every slot holding afterwards either the point it held before or
    the sentinel. *)
Theorem pool_slots_original_or_sentinel c verts normals h pool :
  h !! c = Some (ArrF pool) ->
  0 < length pool ->
  length verts = length normals ->
  forallb norm_nonzero normals = true ->
  exists best pool',
    find_best_approximations inf_to_int64 c verts normals h = (Ok best, <[c := ArrF pool']> h) /\
    length pool' = length pool /\
    (forall i p, pool' !! i = Some p -> p = sentinel \/ pool !! i = Some p).
Proof.
  intros Hc Hpos Hvn _. unfold find_best_approximations.
  assert (pool <> []) as Hne by (intros ->; cbn in Hpos; lia).
  destruct (fba_loop_provenance c pool (zip verts normals) 0
              (map (fun _ => (0, 0, 0)) normals) h pool Hc Hne eq_refl)
    as (best & pool' & Hrun & Hl & Hinv & _); [auto|].
  exists best, pool'. split; [assumption|]. split; assumption.
Qed.

Lemma sentinel_distance_nonfinite normal vertex :
  nonfinite (Prim2SF (plane_distance normal vertex sentinel)) = true.
Proof.
  destruct normal as [[n0 n1] n2], vertex as [[v0 v1] v2].
  unfold plane_distance, sentinel. apply nonfinite_div_l.
  do 3 apply nonfinite_add_l. apply nonfinite_mul_infinity.
Qed.

(** X4. For every vertex and every normal whose norm is not zero (a normal
    with NaN or infinite components included), the plane distance of a
    consumed slot (the sentinel) is never a finite number: it is an infinity
    or a NaN. *)
Theorem consumed_slot_distance_not_finite normal vertex :
  norm_nonzero normal = true ->
  is_finite (plane_distance normal vertex sentinel) = false.
Proof. intros _. apply nonfinite_not_finite, sentinel_distance_nonfinite. Qed.
End ProjectorMore.

Section ProjectorSelection.
Variable inf_to_int64 : res Z.
Local Open Scope float_scope.
Local Open Scope nat_scope.
Import FloatOrder FloatFacts.

Lemma argmin_scan_first_nan xs : forall i mp min_ind k d,
  is_nan mp = false ->
  xs !! k = Some d -> is_nan d = true ->
  forallb (fun x => negb (is_nan x)) (take k xs) = true ->
  argmin_scan xs i mp min_ind = i + k.
Proof.
  induction xs as [|x xs IH]; intros i mp min_ind k d Hmp Hk Hd Hbefore; [discriminate|].
  destruct k as [|k]; cbn in Hk |- *.
  - injection Hk as ->. rewrite (leb_nan_r _ _ Hd), Hd. cbn. lia.
  - cbn in Hbefore. apply andb_true_iff in Hbefore as [Hx%negb_true_iff Hbefore].
    rewrite Hx. destruct (mp <=? x)%float; cbn.
    + rewrite (IH (S i) mp min_ind k d); try assumption. lia.
    + rewrite (IH (S i) x i k d); try assumption. lia.
Qed.

(** With a NaN among the elements, [np.argmin] is the position of the first. *)
Lemma np_argmin_first_nan xs m d :
  xs !! m = Some d -> is_nan d = true ->
  forallb (fun x => negb (is_nan x)) (take m xs) = true ->
  np_argmin xs = Ok m.
Proof.
  destruct xs as [|x xs]; [discriminate|]. intros Hm Hd Hbefore.
  destruct m as [|m]; cbn in Hm |- *.
  - injection Hm as ->. now rewrite Hd.
  - cbn in Hbefore. apply andb_true_iff in Hbefore as [Hx%negb_true_iff Hbefore].
    rewrite Hx. now rewrite (argmin_scan_first_nan xs 1 x 0 m d).
Qed.

(** X5. When the norm of the normal is not zero (a zero norm stops the
    compiled function with ZeroDivisionError) and the plane distance of some
    slot of a float64 pool is NaN, the slot selected for the vertex is the
    first slot whose distance is NaN, whatever the distances of the other
    slots: its content becomes the entry of the vertex and it is overwritten
    with the sentinel. *)
Theorem nan_distance_selects_first_nan c j vertex normal best h pool m d :
  h !! c = Some (ArrF pool) ->
  norm_nonzero normal = true ->
  abs_distances normal vertex pool !! m = Some d ->
  is_nan d = true ->
  forallb (fun x => negb (is_nan x)) (take m (abs_distances normal vertex pool)) = true ->
  fba_iteration inf_to_int64 c j vertex normal best h =
    (Ok (<[j := pool !!! m]> best), <[c := ArrF (<[m := sentinel]> pool)]> h).
Proof.
  intros Hc _ Hm Hd Hbefore. apply fba_iteration_float; [assumption|].
  now apply (np_argmin_first_nan _ m d).
Qed.

(** Distinct slots of a pool of [n] points, fewer than [n]: a slot is left. *)
Lemma fresh_slot (consumed : list nat) n :
  NoDup consumed -> length consumed < n -> exists i, i < n /\ i ∉ consumed.
Proof.
  intros Hnd Hlen.
  destruct (decide (Forall (fun i => i ∈ consumed) (seq 0 n))) as [Hall|Hnot].
  - exfalso. rewrite Forall_forall in Hall.
    pose proof (submseteq_length _ _ (NoDup_submseteq _ _ (NoDup_seq 0 n) Hall)) as Hle.
    rewrite length_seq in Hle. lia.
  - apply not_Forall_Exists in Hnot; [|intros i; apply _].
    apply Exists_exists in Hnot as (i & Hi & Hni).
    exists i. split; [|assumption]. apply elem_of_seq in Hi. lia.
Qed.

(** While cloud points have finite distances and the sentinel never a NaN
    one, every vertex is given the point of a slot not consumed before. *)
Lemma fba_loop_injective c (pool0 : list point) pairs : forall j best h pool consumed,
  h !! c = Some (ArrF pool) ->
  length pool = length pool0 ->
  (forall i, i ∈ consumed -> pool !! i = Some sentinel) ->
  (forall i, i ∉ consumed -> pool !! i = pool0 !! i) ->
  NoDup consumed ->
  length consumed + length pairs <= length pool0 ->
  finite_distances pairs pool0 = true ->
  sentinel_never_nan pairs = true ->
  j + length pairs <= length best ->
  exists sel entries h',
    fba_loop inf_to_int64 c pairs j best h =
      (Ok (take j best ++ entries ++ drop (j + length pairs) best), h') /\
    NoDup (sel ++ consumed) /\
    Forall2 (fun i p => pool0 !! i = Some p) sel entries.
Proof.
  induction pairs as [|[vertex normal] rest IH];
    intros j best h pool consumed Hc Hlen Hin Hout Hnd Hroom Hfin Hsen Hj.
  - exists [], [], h. cbn. run. rewrite Nat.add_0_r, take_drop. auto.
  - cbn in Hroom, Hj, Hfin, Hsen.
    apply andb_true_iff in Hfin as [Hfin1 Hfin]. apply andb_true_iff in Hsen as [Hsen1 Hsen].
    apply negb_true_iff in Hsen1. rewrite forallb_forall in Hfin1.
    assert (forall i p, pool !! i = Some p ->
              (i ∈ consumed /\ p = sentinel) \/
              ((i ∉ consumed) /\ is_finite (plane_distance normal vertex p) = true)) as Hslot.
    { intros i p Hp. destruct (decide (i ∈ consumed)) as [Hi|Hi].
      - left. split; [assumption|]. rewrite (Hin i Hi) in Hp. congruence.
      - right. split; [assumption|]. rewrite (Hout i Hi) in Hp.
        apply Hfin1, list_elem_of_In. eapply list_elem_of_lookup_2, Hp. }
    destruct (fresh_slot consumed (length pool0) Hnd) as (i0 & Hi0 & Hfresh); [lia|].
    destruct (lookup_lt_is_Some_2 pool i0) as [p0 Hp0]; [lia|].
    destruct (Hslot i0 p0 Hp0) as [[Hbad _]|[_ Hfin0]]; [contradiction|].
    destruct (np_argmin_first_min (abs_distances normal vertex pool)) as (m & Hm & d & Hd & Hmin).
    { intros E. apply (f_equal length) in E. rewrite abs_distances_length in E.
      apply lookup_lt_Some in Hp0. cbn in E. lia. }
    { unfold abs_distances. rewrite !Forall_fmap. apply Forall_lookup. intros i p Hp. cbn.
      rewrite abs_nan. destruct (Hslot i p Hp) as [[_ ->]|[_ Hf]];
        [assumption | now apply finite_not_nan]. }
    unfold abs_distances in Hd. rewrite !list_lookup_fmap in Hd.
    destruct (pool !! m) as [pm|] eqn:Hpm; [|discriminate]. cbn in Hd. injection Hd as <-.
    assert ((m ∉ consumed) /\ pool0 !! m = Some pm) as [Hm_new Hpm0].
    { destruct (Hslot m pm Hpm) as [[Hm_in ->]|[Hm_out _]].
      - exfalso. destruct (Hmin i0 (abs (plane_distance normal vertex p0))) as [Hle _].
        { unfold abs_distances. rewrite !list_lookup_fmap, Hp0. reflexivity. }
        rewrite abs_nonfinite_not_below in Hle; [discriminate| |].
        + apply sentinel_distance_nonfinite.
        + now rewrite abs_finite.
      - split; [assumption|]. now rewrite <- (Hout m Hm_out). }
    assert (m < length pool) as Hlt by (eapply lookup_lt_Some; eassumption).
    assert (c < length h) as Hcl by (eapply lookup_lt_Some; eassumption).
    destruct (IH (S j) (<[j := pool !!! m]> best)
                (<[c := ArrF (<[m := sentinel]> pool)]> h) (<[m := sentinel]> pool)
                (m :: consumed))
      as (sel & entries & h' & Hrun & Hnd' & Hsel).
    { now apply list_lookup_insert_eq. }
    { now rewrite length_insert. }
    { intros i [->|Hi]%elem_of_cons; [now apply list_lookup_insert_eq|].
      destruct (decide (m = i)) as [->|Hmi]; [now apply list_lookup_insert_eq|].
      rewrite list_lookup_insert_ne by assumption. now apply Hin. }
    { intros i Hi. apply not_elem_of_cons in Hi as [Hne Hi].
      rewrite list_lookup_insert_ne by congruence. now apply Hout. }
    { now constructor. }
    { cbn. lia. }
    { assumption. }
    { assumption. }
    { rewrite length_insert. lia. }
    exists (m :: sel), (pm :: entries), h'. split; [|split].
    + cbn. unfold mbind at 1, M_bind.
      rewrite (fba_iteration_float _ _ _ _ _ _ _ _ _ Hc Hm), Hrun. f_equal. f_equal.
      rewrite (list_lookup_total_correct _ _ _ Hpm).
      rewrite (take_S_r _ _ pm) by (apply list_lookup_insert_eq; lia).
      rewrite take_insert_ge by lia. rewrite drop_insert_lt by lia.
      rewrite <- app_assoc. cbn. now rewrite Nat.add_succ_r.
    + cbn. now rewrite Permutation_middle.
    + now constructor.
Qed.

End ProjectorSelection.

(** ** Further properties of the coordinate transform *)

Section TransformMore.
Variable marching_cubes : grid -> res mesh.
Variable inf_to_int64 : res Z.
Local Open Scope float_scope.
Import FloatOrder FloatFacts.

Lemma py_int_cases x :
  F.py_int x = Ok (F.trunc x) \/ F.py_int x = Raise nan_error \/ F.py_int x = Raise infinity_error.
Proof. unfold F.py_int. destruct (is_nan x); auto. destruct (is_infinity x); auto. Qed.

Lemma py_int_nan x : is_nan x = true -> F.py_int x = Raise nan_error.
Proof. intros Hx. unfold F.py_int. now rewrite Hx. Qed.

(** The value line 138 converts for one axis is a NaN as soon as one of the
    two extrema is. *)
Lemma selected_nan a b i :
  is_nan a || is_nan b = true -> np_argmin (map abs [a; b]) = Ok i ->
  is_nan ([a; b] !!! i) = true.
Proof.
  intros Hab. cbn. rewrite !abs_nan.
  destruct (is_nan a) eqn:Ea; [intros [= <-]; exact Ea|]. cbn in Hab.
  rewrite (leb_nan_r _ _ (eq_trans (abs_nan b) Hab)). cbn. rewrite Hab.
  intros [= <-]. exact Hab.
Qed.

Lemma min_absolute_value_raises_on_nan x1 y1 z1 x2 y2 z2 :
  (is_nan x1 || is_nan x2) || (is_nan y1 || is_nan y2) || (is_nan z1 || is_nan z2) = true ->
  exists e, _min_absolute_value (x1, y1, z1) (x2, y2, z2) = Raise e /\
            (e = nan_error \/ e = infinity_error).
Proof.
  intros Hnan. unfold _min_absolute_value. cbn [map].
  destruct (np_argmin (map abs [x1; x2])) as [i0|] eqn:E0; [|discriminate E0].
  destruct (np_argmin (map abs [y1; y2])) as [i1|] eqn:E1; [|discriminate E1].
  destruct (np_argmin (map abs [z1; z2])) as [i2|] eqn:E2; [|discriminate E2].
  cbn [map] in E0, E1, E2. rewrite E0, E1, E2.
  unfold mbind, mret, res_bind, res_ret.
  destruct (is_nan x1 || is_nan x2) eqn:Hx.
  { rewrite (py_int_nan _ (selected_nan _ _ _ Hx E0)). eauto. }
  destruct (py_int_cases ([x1; x2] !!! i0)) as [->|[->| ->]]; eauto.
  destruct (is_nan y1 || is_nan y2) eqn:Hy.
  { rewrite (py_int_nan _ (selected_nan _ _ _ Hy E1)). eauto. }
  destruct (py_int_cases ([y1; y2] !!! i1)) as [->|[->| ->]]; eauto.
  cbn in Hnan.
  rewrite (py_int_nan _ (selected_nan _ _ _ Hnan E2)). eauto.
Qed.

(** X7. [_min_absolute_value] returns no shift when an extremum is NaN: it
    raises, the ValueError of [int(nan)] or, when an infinite extremum is
    converted first, the OverflowError of [int(inf)]. *)
Theorem min_absolute_value_nan x1 y1 z1 x2 y2 z2 :
  (is_nan x1 || is_nan x2) || (is_nan y1 || is_nan y2) || (is_nan z1 || is_nan z2) = true ->
  exists e, _min_absolute_value (x1, y1, z1) (x2, y2, z2) = Raise e /\
            (e = nan_error \/ e = infinity_error).
Proof. apply min_absolute_value_raises_on_nan. Qed.

Lemma fold_maximum_nan xs : forall a,
  is_nan a = true \/ existsb is_nan xs = true -> is_nan (fold_left F.maximum xs a) = true.
Proof.
  induction xs as [|x xs IH]; intros a [Ha|Hxs]; cbn in *; try assumption; try discriminate.
  - apply IH. left. unfold F.maximum. now rewrite Ha, orb_true_r.
  - apply orb_true_iff in Hxs as [Hx|Hxs]; [|apply IH; now right].
    apply IH. left. unfold F.maximum.
    destruct (is_nan a) eqn:Ea; [now rewrite orb_true_r|].
    now rewrite (leb_nan_l _ _ Hx).
Qed.

(** [np.amax] of elements one of which is NaN is NaN. *)
Lemma np_amax_nan xs : existsb is_nan xs = true -> exists m, np_amax xs = Ok m /\ is_nan m = true.
Proof.
  destruct xs as [|x xs]; [discriminate|]. cbn. intros H.
  eexists. split; [reflexivity|]. apply fold_maximum_nan.
  apply orb_true_iff in H. tauto.
Qed.

Lemma np_amin_nonempty xs : xs <> [] -> exists m, np_amin xs = Ok m.
Proof. destruct xs; [congruence | eauto]. Qed.

(** A NaN coordinate is a NaN coordinate in voxel space. *)
Lemma scale_nan x y z :
  let '(x', y', z', _) := mat_vec inv_transform_scale (x, y, z, s1) in
  (is_nan x = true -> is_nan x' = true) /\
  (is_nan y = true -> is_nan y' = true) /\
  (is_nan z = true -> is_nan z' = true).
Proof.
  cbn. repeat split; intros H.
  - do 3 apply add_nan_l. now apply mul_nan_r.
  - do 2 apply add_nan_l. apply add_nan_r. now apply mul_nan_r.
  - apply add_nan_l, add_nan_r. now apply mul_nan_r.
Qed.

Lemma existsb_or3 {A} (f g k : A -> bool) l :
  existsb (fun x => f x || g x || k x) l = existsb f l || existsb g l || existsb k l.
Proof.
  induction l as [|a l IH]; [reflexivity|]. cbn. rewrite IH.
  destruct (f a), (g a), (k a), (existsb f l), (existsb g l), (existsb k l); reflexivity.
Qed.

Lemma existsb_fmap {A B} (p : B -> bool) (f : A -> B) l :
  existsb p (map f l) = existsb (fun x => p (f x)) l.
Proof. induction l as [|a l IH]; [reflexivity|]. cbn. now rewrite IH. Qed.

Lemma existsb_impl {A} (f g : A -> bool) l :
  (forall x, f x = true -> g x = true) -> existsb f l = true -> existsb g l = true.
Proof.
  intros Hfg. induction l as [|a l IH]; [discriminate|]. cbn.
  intros [Ha|Hl]%orb_true_iff; apply orb_true_iff; [left; now apply Hfg | right; now apply IH].
Qed.

(** The per-axis maxima of a cloud with a NaN coordinate: one is NaN. *)
Lemma amax_rows3_nan (vc : list (vec4 float)) :
  existsb (fun v => is_nan (coord0 v) || is_nan (coord1 v) || is_nan (coord2 v)) vc = true ->
  exists mx my mz, amax_rows3 vc = Ok (mx, my, mz) /\
                   is_nan mx || is_nan my || is_nan mz = true.
Proof.
  rewrite existsb_or3, <- (existsb_fmap is_nan coord0), <- (existsb_fmap is_nan coord1),
    <- (existsb_fmap is_nan coord2). intros Hnan.
  destruct vc as [|v vc]; [discriminate|].
  unfold amax_rows3. cbn [map np_amax]. unfold mbind, mret, res_bind, res_ret.
  do 3 eexists. split; [reflexivity|].
  cbn [map existsb] in Hnan.
  apply orb_true_iff in Hnan as [[H0|H1]%orb_true_iff|H2]; apply orb_true_iff.
  - left. apply orb_true_iff. left. apply fold_maximum_nan.
    apply orb_true_iff in H0. tauto.
  - left. apply orb_true_iff. right. apply fold_maximum_nan.
    apply orb_true_iff in H1. tauto.
  - right. apply fold_maximum_nan. apply orb_true_iff in H2. tauto.
Qed.

Lemma coordinate_transform_nan rows :
  has_nan rows = true ->
  exists e, coordinate_transform (ArrF rows) = Raise e /\ (e = nan_error \/ e = infinity_error).
Proof.
  intros Hnan. unfold coordinate_transform. cbn [hstack_rows].
  unfold mbind at 1, res_bind at 1. unfold mbind at 1, res_bind at 1.
  set (vc := matmul inv_transform_scale (hstack_ones rows)).
  destruct (amax_rows3_nan vc) as (mx & my & mz & -> & Hm).
  { subst vc. unfold matmul, hstack_ones. rewrite !existsb_fmap.
    revert Hnan. apply existsb_impl. intros [[x y] z] Hxyz.
    pose proof (scale_nan x y z) as Hs.
    destruct (mat_vec inv_transform_scale (x, y, z, s1)) as [[[x' y'] z'] w']. cbn.
    destruct Hs as (Hx & Hy & Hz).
    apply orb_true_iff in Hxyz as [[H|H]%orb_true_iff|H].
    - now rewrite Hx.
    - rewrite (Hy H). now rewrite orb_true_r.
    - rewrite (Hz H). now rewrite orb_true_r. }
  assert (vc <> []) as Hvc.
  { subst vc. destruct rows; [discriminate|]. discriminate. }
  unfold amin_rows3. unfold mbind, mret, res_bind, res_ret.
  destruct (np_amin_nonempty (map coord0 vc)) as [nx ->]; [destruct vc; [congruence|discriminate]|].
  destruct (np_amin_nonempty (map coord1 vc)) as [ny ->]; [destruct vc; [congruence|discriminate]|].
  destruct (np_amin_nonempty (map coord2 vc)) as [nz ->]; [destruct vc; [congruence|discriminate]|].
  destruct (min_absolute_value_raises_on_nan mx my mz nx ny nz) as (e & -> & He).
  - apply orb_true_iff in Hm as [[H|H]%orb_true_iff|H]; rewrite H;
      rewrite ?orb_true_r; reflexivity.
  - eauto.
Qed.

(** X8. A cloud with a NaN coordinate stops [alphashape] in the coordinate
    transform: the NaN reaches a per-axis maximum, [int()] raises on it, and
    the exception (the ValueError of a NaN, or the OverflowError of an
    infinite extremum converted before it) leaves the store as it was: no
    array has been created. *)
Theorem nan_coordinate_stops_pipeline coords nlayers plot h rows :
  h !! coords = Some (ArrF rows) ->
  has_nan rows = true ->
  exists e, alphashape marching_cubes inf_to_int64 coords nlayers plot h = (Raise e, h) /\
            (e = nan_error \/ e = infinity_error).
Proof.
  intros Hc Hnan. destruct (coordinate_transform_nan rows Hnan) as (e & He & Hcases).
  exists e. split; [|assumption].
  unfold alphashape, alphashape_locals. unfold mbind, M_bind, load, lift.
  now rewrite (list_lookup_total_correct _ _ _ Hc), He.
Qed.
End TransformMore.

(** ** The voxel grid *)

Section Voxels.
Local Open Scope float_scope.
Local Open Scope nat_scope.

Lemma norm_index_spec i n :
  norm_index i n =
    if axis_ok i n then Ok (axis_pos i n) else Raise (IndexError "index is out of bounds for axis").
Proof.
  unfold norm_index, axis_ok, axis_pos.
  destruct (Z.leb_spec 0 i), (Z.ltb_spec i (Z.of_nat n)), (Z.leb_spec (- Z.of_nat n) i),
    (Z.ltb_spec i 0); cbn; try reflexivity; lia.
Qed.

Lemma axis_pos_lt i n : axis_ok i n = true -> axis_pos i n < n.
Proof.
  unfold axis_ok, axis_pos. intros [H1 H2]%andb_true_iff.
  apply Z.leb_le in H1. apply Z.ltb_lt in H2.
  destruct (Z.ltb_spec i 0); lia.
Qed.

Lemma well_shaped_plane a b c g i plane :
  well_shaped a b c g -> g !! i = Some plane ->
  length plane = b /\ Forall (fun line => length line = c) plane.
Proof. intros [_ Hg] Hi. exact (proj1 (Forall_lookup _ _) Hg i plane Hi). Qed.

Lemma well_shaped_line a b c g i j plane line :
  well_shaped a b c g -> g !! i = Some plane -> plane !! j = Some line -> length line = c.
Proof.
  intros Hg Hi Hj. destruct (well_shaped_plane _ _ _ _ _ _ Hg Hi) as [_ Hp].
  exact (proj1 (Forall_lookup _ _) Hp j line Hj).
Qed.

(** An index out of range on some axis raises. *)
Lemma setitem3_out_of_range a b c g idx v :
  well_shaped a b c g -> in_range a b c idx = false ->
  setitem3 g idx v = Raise (IndexError "index is out of bounds for axis").
Proof.
  intros Hg Hr. destruct idx as [[x y] z]. unfold setitem3, in_range in *.
  rewrite norm_index_spec. destruct Hg as [Hlen Hg]. rewrite Hlen.
  destruct (axis_ok x a) eqn:Ex; [|reflexivity]. cbn.
  pose proof (axis_pos_lt x a Ex) as Hx.
  destruct (lookup_lt_is_Some_2 g (axis_pos x a)) as [plane Hp]; [lia|].
  rewrite (list_lookup_total_correct _ _ _ Hp).
  destruct (proj1 (Forall_lookup _ _) Hg _ _ Hp) as [Hb Hplane].
  rewrite norm_index_spec, Hb.
  destruct (axis_ok y b) eqn:Ey; [|reflexivity]. cbn.
  pose proof (axis_pos_lt y b Ey) as Hy.
  destruct (lookup_lt_is_Some_2 plane (axis_pos y b)) as [line Hl]; [lia|].
  rewrite (list_lookup_total_correct _ _ _ Hl).
  rewrite norm_index_spec, (proj1 (Forall_lookup _ _) Hplane _ _ Hl).
  cbn in Hr. now rewrite Hr.
Qed.

(** An index in range sets its cell and no other, and keeps the shape. *)
Lemma setitem3_in_range a b c g idx v :
  well_shaped a b c g -> in_range a b c idx = true ->
  exists g',
    setitem3 g idx v = Ok g' /\ well_shaped a b c g' /\
    forall i j k,
      cell g' i j k = if decide ((i, j, k) = pos3 a b c idx) then Some v else cell g i j k.
Proof.
  intros Hg Hr. destruct idx as [[x y] z]. unfold setitem3, in_range, pos3 in *.
  apply andb_true_iff in Hr as [[Ex Ey]%andb_true_iff Ez].
  pose proof (axis_pos_lt x a Ex) as Hx. pose proof (axis_pos_lt y b Ey) as Hy.
  pose proof (axis_pos_lt z c Ez) as Hz.
  set (px := axis_pos x a) in *. set (py := axis_pos y b) in *. set (pz := axis_pos z c) in *.
  destruct Hg as [Hlen Hg].
  destruct (lookup_lt_is_Some_2 g px) as [plane Hp]; [lia|].
  destruct (proj1 (Forall_lookup _ _) Hg _ _ Hp) as [Hb Hplane].
  destruct (lookup_lt_is_Some_2 plane py) as [line Hl]; [lia|].
  pose proof (proj1 (Forall_lookup _ _) Hplane _ _ Hl) as Hc.
  rewrite norm_index_spec, Hlen, Ex. cbn. fold px.
  rewrite (list_lookup_total_correct _ _ _ Hp), norm_index_spec, Hb, Ey. cbn. fold py.
  rewrite (list_lookup_total_correct _ _ _ Hl), norm_index_spec, Hc, Ez. cbn. fold pz.
  eexists. split; [reflexivity|]. unfold grid in *. split.
  - split; [now rewrite length_insert|].
    apply Forall_insert; [assumption|]. split; [now rewrite length_insert|].
    apply Forall_insert; [assumption|]. now rewrite length_insert.
  - intros i j k. unfold cell, grid in *.
    destruct (decide (i = px)) as [->|Hi].
    + rewrite list_lookup_insert_eq by lia. cbn.
      destruct (decide (j = py)) as [->|Hj].
      * rewrite list_lookup_insert_eq by lia. cbn.
        destruct (decide (k = pz)) as [->|Hk].
        -- rewrite list_lookup_insert_eq by lia. now rewrite decide_True.
        -- rewrite list_lookup_insert_ne by congruence.
           rewrite decide_False by congruence. rewrite Hp. cbn. now rewrite Hl.
      * rewrite list_lookup_insert_ne by congruence.
        rewrite decide_False by congruence. now rewrite Hp.
    + rewrite list_lookup_insert_ne by congruence.
      now rewrite decide_False by congruence.
Qed.

(** Lines 78-79 complete exactly when every index is in range. *)
Lemma fill_voxels_ok a b c idxs : forall g,
  well_shaped a b c g -> is_ok (fill_voxels g idxs) = forallb (in_range a b c) idxs.
Proof.
  induction idxs as [|idx rest IH]; intros g Hg; [reflexivity|]. cbn.
  destruct (in_range a b c idx) eqn:Hr.
  - destruct (setitem3_in_range a b c g idx 1%float Hg Hr) as (g' & -> & Hg' & _).
    cbn. now apply IH.
  - now rewrite (setitem3_out_of_range a b c g idx _ Hg Hr).
Qed.

(** What a completed fill leaves: the shape, a 1 in the cell of every index,
    and in every cell either what it held or the 1 of some index. *)
Lemma fill_voxels_cells a b c idxs : forall g g',
  well_shaped a b c g -> fill_voxels g idxs = Ok g' ->
  well_shaped a b c g' /\
  (forall idx, idx ∈ idxs -> let '(i, j, k) := pos3 a b c idx in cell g' i j k = Some 1%float) /\
  (forall i j k, cell g' i j k = cell g i j k \/
                 (cell g' i j k = Some 1%float /\ exists idx, idx ∈ idxs /\ pos3 a b c idx = (i, j, k))).
Proof.
  induction idxs as [|idx rest IH]; intros g g' Hg Hfill; cbn in Hfill.
  - injection Hfill as <-. split; [assumption|]. split; [|now left].
    intros idx Hin. now apply elem_of_nil in Hin.
  - destruct (in_range a b c idx) eqn:Hr.
    + destruct (setitem3_in_range a b c g idx 1%float Hg Hr) as (g1 & Hset & Hg1 & Hcell).
      rewrite Hset in Hfill. cbn in Hfill.
      destruct (IH g1 g' Hg1 Hfill) as (Hg' & Hmark & Hrest).
      split; [assumption|]. split.
      * intros idx' [Hhd|Hin]%elem_of_cons; [rewrite Hhd; clear Hhd|now apply Hmark].
        destruct (pos3 a b c idx) as [[i j] k] eqn:Hpos.
        destruct (Hrest i j k) as [Heq|[H1 _]]; [|assumption].
        rewrite Heq, Hcell. rewrite ?Hpos. now rewrite decide_True.
      * intros i j k. destruct (Hrest i j k) as [Heq|(H1 & idx' & Hin & Hpos)].
        -- rewrite Heq, Hcell. destruct (decide ((i, j, k) = pos3 a b c idx)) as [Hp|Hp].
           ++ right. split; [reflexivity|]. exists idx. split; [constructor | now symmetry].
           ++ now left.
        -- right. split; [assumption|]. exists idx'. split; [now constructor | assumption].
    + rewrite (setitem3_out_of_range a b c g idx _ Hg Hr) in Hfill. discriminate.
Qed.
End Voxels.

(** ** The padded grid of the voxelizer *)

Section Voxelizer.
Local Open Scope float_scope.
Local Open Scope nat_scope.

Lemma fill_voxels_raises a b c idxs : forall g,
  well_shaped a b c g -> forallb (in_range a b c) idxs = false ->
  fill_voxels g idxs = Raise (IndexError "index is out of bounds for axis").
Proof.
  induction idxs as [|idx rest IH]; intros g Hg; [discriminate|]. cbn.
  destruct (in_range a b c idx) eqn:Hr.
  - destruct (setitem3_in_range a b c g idx 1%float Hg Hr) as (g' & -> & Hg' & _).
    cbn. now apply IH.
  - now rewrite (setitem3_out_of_range a b c g idx _ Hg Hr).
Qed.

Lemma zeros_well_shaped a b c :
  well_shaped a b c (replicate a (replicate b (replicate c 0%float))).
Proof.
  split; [apply length_replicate|].
  apply Forall_replicate. split; [apply length_replicate|].
  apply Forall_replicate, length_replicate.
Qed.

Lemma zeros_cell a b c i j k x :
  cell (replicate a (replicate b (replicate c 0%float))) i j k = Some x -> x = 0%float.
Proof.
  unfold cell. intros (plane & Hp & (line & Hl & Hx)%bind_Some)%bind_Some.
  apply lookup_replicate in Hp as [-> _]. apply lookup_replicate in Hl as [-> _].
  now apply lookup_replicate in Hx as [-> _].
Qed.

Lemma cell_bounds a b c g i j k x :
  well_shaped a b c g -> cell g i j k = Some x -> i < a /\ j < b /\ k < c.
Proof.
  intros Hg. unfold cell. intros (plane & Hp & (line & Hl & Hx)%bind_Some)%bind_Some.
  pose proof (well_shaped_plane _ _ _ _ _ _ Hg Hp) as [Hb _].
  pose proof (well_shaped_line _ _ _ _ _ _ _ _ Hg Hp Hl) as Hc.
  apply lookup_lt_Some in Hp, Hl, Hx. destruct Hg as [Ha _]. lia.
Qed.

Lemma lookup_pad_inv {A} (z : A) l i y :
  (z :: l ++ [z]) !! i = Some y -> y = z \/ exists i', i = S i' /\ l !! i' = Some y.
Proof.
  destruct i as [|i]; cbn; [intros [= <-]; now left|].
  intros [H|[_ H]]%lookup_app_Some; [right; eauto|].
  left. destruct (i - length l); cbn in H; [congruence|discriminate].
Qed.

(** A cell of the padded grid holds 0 or is an inner cell, which holds what
    the grid held. *)
Lemma np_pad3_cell_inv shape g i j k x :
  cell (np_pad3 shape g) i j k = Some x ->
  x = 0%float \/
  exists i' j' k', i = S i' /\ j = S j' /\ k = S k' /\ cell g i' j' k' = Some x.
Proof.
  destruct shape as [[sa sb] sc]. unfold cell at 1, np_pad3.
  intros (plane & Hp & (line & Hl & Hx)%bind_Some)%bind_Some.
  apply lookup_pad_inv in Hp as [->|(i' & -> & Hp)].
  { apply lookup_replicate in Hl as [-> _]. apply lookup_replicate in Hx as [-> _]. now left. }
  apply (list_lookup_fmap_Some_1 _ g) in Hp as (p & -> & Hp).
  apply lookup_pad_inv in Hl as [->|(j' & -> & Hl)].
  { apply lookup_replicate in Hx as [-> _]. now left. }
  apply (list_lookup_fmap_Some_1 _ p) in Hl as (l & -> & Hl).
  apply lookup_pad_inv in Hx as [->|(k' & -> & Hx)]; [now left|].
  right. exists i', j', k'. unfold cell, grid in *. rewrite Hp. cbn. rewrite Hl. cbn. auto.
Qed.

Lemma lookup_pad_inner {A B} (f : A -> B) (z : B) l i x :
  l !! i = Some x -> (z :: map f l ++ [z]) !! S i = Some (f x).
Proof.
  intros Hx. cbn. apply lookup_app_l_Some.
  change (map f l) with (f <$> l). now rewrite list_lookup_fmap, Hx.
Qed.

Lemma np_pad3_cell_inner shape g i j k x :
  cell g i j k = Some x -> cell (np_pad3 shape g) (S i) (S j) (S k) = Some x.
Proof.
  destruct shape as [[sa sb] sc]. unfold cell, np_pad3, grid in *.
  intros (plane & Hp & (line & Hl & Hx)%bind_Some)%bind_Some. cbv beta iota zeta.
  rewrite (lookup_pad_inner _ _ _ _ _ Hp). cbn [mbind option_bind].
  rewrite (lookup_pad_inner _ _ _ _ _ Hl). cbn [mbind option_bind].
  cbn. now apply lookup_app_l_Some.
Qed.

Lemma np_pad3_well_shaped a b c sa sb sc g :
  well_shaped a b c g -> Z.to_nat sb = b -> Z.to_nat sc = c ->
  well_shaped (a + 2) (b + 2) (c + 2) (np_pad3 (sa, sb, sc) g).
Proof.
  intros [Ha Hg] Hb Hc. unfold np_pad3. rewrite Hb, Hc. split.
  - cbn. rewrite length_app, length_map. cbn. lia.
  - assert (length (replicate (b + 2) (replicate (c + 2) 0%float)) = b + 2 /\
            Forall (fun line => length line = c + 2) (replicate (b + 2) (replicate (c + 2) 0%float)))
      as Hz.
    { split; [apply length_replicate|]. apply Forall_replicate, length_replicate. }
    apply Forall_cons. split; [exact Hz|].
    apply Forall_app. split; [|apply Forall_cons; split; [exact Hz | constructor]].
    apply Forall_fmap. eapply Forall_impl; [exact Hg|].
    intros plane [Hlen Hplane]. cbn. split.
    + rewrite length_app, length_map. cbn. lia.
    + apply Forall_cons. split; [apply length_replicate|].
      apply Forall_app. split; [|apply Forall_cons; split; [apply length_replicate | constructor]].
      apply Forall_fmap. eapply Forall_impl; [exact Hplane|].
      intros line Hline. cbn in *. rewrite length_app. cbn. lia.
Qed.

(** The three outcomes of the voxelizer. *)
Lemma voxelizer_run max_vals min_vals vc (h : heap) a b c :
  voxel_shape max_vals min_vals = (a, b, c) ->
  (sizes_nonneg max_vals min_vals = false /\
   voxelizer max_vals min_vals vc h =
     (Raise (ValueError "negative dimensions are not allowed"), h)) \/
  (sizes_nonneg max_vals min_vals = true /\
   forallb (in_range a b c) (rounded_cloud vc) = false /\
   voxelizer max_vals min_vals vc h =
     (Raise (IndexError "index is out of bounds for axis"), h ++ [ArrI (rounded_cloud vc)])) \/
  (sizes_nonneg max_vals min_vals = true /\
   forallb (in_range a b c) (rounded_cloud vc) = true /\
   exists filled sa sb sc,
     Z.to_nat sb = b /\ Z.to_nat sc = c /\
     fill_voxels (replicate a (replicate b (replicate c 0%float))) (rounded_cloud vc) = Ok filled /\
     voxelizer max_vals min_vals vc h =
       (Ok (length h, np_pad3 (sa, sb, sc) filled), h ++ [ArrI (rounded_cloud vc)])).
Proof.
  destruct max_vals as [[max0 max1] max2], min_vals as [[min0 min1] min2].
  unfold voxel_shape, sizes_nonneg, voxelizer. intros [= <- <- <-].
  unfold np_zeros3. fold (rounded_cloud vc).
  set (sa := (around_int (max0 - min0) + 1)%Z).
  set (sb := (around_int (max1 - min1) + 1)%Z).
  set (sc := (around_int (max2 - min2) + 1)%Z).
  run.
  destruct (Z.ltb_spec sa 0), (Z.ltb_spec sb 0), (Z.ltb_spec sc 0),
    (Z.leb_spec 0 sa), (Z.leb_spec 0 sb), (Z.leb_spec 0 sc); try lia; cbn;
    try (left; split; reflexivity).
  right.
  pose proof (zeros_well_shaped (Z.to_nat sa) (Z.to_nat sb) (Z.to_nat sc)) as Hz.
  destruct (forallb _ (rounded_cloud vc)) eqn:Hrange.
  - right. split; [reflexivity|]. split; [reflexivity|].
    pose proof (fill_voxels_ok _ _ _ (rounded_cloud vc) _ Hz) as Hok. rewrite Hrange in Hok.
    destruct (fill_voxels _ (rounded_cloud vc)) as [filled|e] eqn:Hfill; [|discriminate].
    exists filled, sa, sb, sc. auto.
  - left. split; [reflexivity|]. split; [reflexivity|].
    now rewrite (fill_voxels_raises _ _ _ _ _ Hz Hrange).
Qed.
End Voxelizer.

(** ** Properties of the voxel grid handed to marching cubes *)

Section VoxelizerProperties.
Local Open Scope float_scope.
Local Open Scope nat_scope.

(** X9. The voxelizer (lines 74-84) after a coordinate transform whose shift
    fits int64, so that the voxel coordinates are a float64 array, has three
    outcomes, told apart by its input alone (memory taken as unbounded). It
    raises the ValueError of [np.zeros] when an entry of the shape is
    negative (an extent that is NaN, infinite or beyond int64 rounds to the
    least int64); having created the integer cloud, it raises the IndexError
    of [voxels[x, y, z] = 1] when some rounded coordinate lies outside
    [-n, n) on its axis of size n; and it completes exactly when the shape
    is not negative and every rounded coordinate is in that range. Negative
    coordinates down to -n are accepted and wrap around. *)
Theorem voxelizer_completes_iff_in_range cloud max_vals min_vals shift vc (h : heap) :
  coordinate_transform cloud = Ok (max_vals, min_vals, shift, vc) ->
  shift_fits_int64 shift = true ->
  let '(a, b, c) := voxel_shape max_vals min_vals in
  match voxelizer max_vals min_vals vc h with
  | (Ok _, _) =>
      sizes_nonneg max_vals min_vals = true /\
      forallb (in_range a b c) (rounded_cloud vc) = true
  | (Raise e, h') =>
      (sizes_nonneg max_vals min_vals = false /\
       e = ValueError "negative dimensions are not allowed" /\ h' = h) \/
      (sizes_nonneg max_vals min_vals = true /\
       forallb (in_range a b c) (rounded_cloud vc) = false /\
       e = IndexError "index is out of bounds for axis" /\
       h' = h ++ [ArrI (rounded_cloud vc)])
  end.
Proof.
  intros _ _.
  destruct (voxel_shape max_vals min_vals) as [[a b] c] eqn:Hshape.
  destruct (voxelizer_run max_vals min_vals vc h a b c Hshape)
    as [(Hs & ->)|[(Hs & Hr & ->)|(Hs & Hr & filled & sa & sb & sc & _ & _ & _ & ->)]].
  - left. auto.
  - right. auto.
  - auto.
Qed.

(** X10. The grid the voxelizer hands to marching cubes has the shape of
    the rounded extent plus 3 on every axis (the extent plus 1, padded by 1
    on both sides), every line and plane of it complete, and every cell of
    its outer layer is 0: no point of the cloud touches the border. *)
Theorem voxel_grid_shape_and_border max_vals min_vals vc (h h' : heap) l g a b c :
  voxelizer max_vals min_vals vc h = (Ok (l, g), h') ->
  voxel_shape max_vals min_vals = (a, b, c) ->
  well_shaped (a + 2) (b + 2) (c + 2) g /\
  forall i j k x,
    on_border (a + 2) (b + 2) (c + 2) i j k -> cell g i j k = Some x -> x = 0%float.
Proof.
  intros Hrun Hshape.
  destruct (voxelizer_run max_vals min_vals vc h a b c Hshape)
    as [(_ & Hv)|[(_ & _ & Hv)|(_ & _ & filled & sa & sb & sc & Hb & Hc & Hfill & Hv)]];
    rewrite Hv in Hrun; try discriminate.
  assert (g = np_pad3 (sa, sb, sc) filled) as -> by congruence. clear Hrun Hv.
  destruct (fill_voxels_cells a b c _ _ _ (zeros_well_shaped a b c) Hfill) as (Hfilled & _ & _).
  split; [now apply (np_pad3_well_shaped a b c sa sb sc)|].
  intros i j k x Hborder Hcell.
  apply np_pad3_cell_inv in Hcell as [->|(i' & j' & k' & -> & -> & -> & Hcell)]; [reflexivity|].
  apply (cell_bounds a b c) in Hcell; [|assumption].
  unfold on_border in Hborder. lia.
Qed.

(** X11. The grid is the occupancy grid of the rounded cloud: the cell of
    every point of the integer cloud (one step inwards for the padding, a
    negative coordinate counted from the far end of its axis) holds 1, and
    every cell holds either 0 or 1, a 1 only where some point of the cloud
    falls. Points that round to the same cell mark it once. *)
Theorem voxel_grid_marks_exactly_the_cloud max_vals min_vals vc (h h' : heap) l g a b c :
  voxelizer max_vals min_vals vc h = (Ok (l, g), h') ->
  voxel_shape max_vals min_vals = (a, b, c) ->
  (forall idx, idx ∈ rounded_cloud vc ->
     let '(i, j, k) := pos3 a b c idx in cell g (S i) (S j) (S k) = Some 1%float) /\
  (forall i j k x, cell g i j k = Some x ->
     x = 0%float \/
     (x = 1%float /\
      exists idx, idx ∈ rounded_cloud vc /\
        let '(i', j', k') := pos3 a b c idx in (i, j, k) = (S i', S j', S k'))).
Proof.
  intros Hrun Hshape.
  destruct (voxelizer_run max_vals min_vals vc h a b c Hshape)
    as [(_ & Hv)|[(_ & _ & Hv)|(_ & _ & filled & sa & sb & sc & Hb & Hc & Hfill & Hv)]];
    rewrite Hv in Hrun; try discriminate.
  assert (g = np_pad3 (sa, sb, sc) filled) as -> by congruence. clear Hrun Hv.
  destruct (fill_voxels_cells a b c _ _ _ (zeros_well_shaped a b c) Hfill)
    as (Hfilled & Hmark & Hrest).
  split.
  - intros idx Hin. specialize (Hmark idx Hin).
    destruct (pos3 a b c idx) as [[i j] k]. now apply np_pad3_cell_inner.
  - intros i j k x Hcell.
    apply np_pad3_cell_inv in Hcell as [->|(i' & j' & k' & -> & -> & -> & Hcell)]; [now left|].
    destruct (Hrest i' j' k') as [Heq|(H1 & idx & Hin & Hpos)].
    + left. rewrite Heq in Hcell. now apply zeros_cell in Hcell.
    + right. split; [congruence|]. exists idx. split; [assumption|]. now rewrite Hpos.
Qed.
End VoxelizerProperties.

(** ** Runs on concrete inputs *)

Section MoreRuns.
Local Open Scope float_scope.

Lemma projector_output_length_witness :
  find_best_approximations numpy_inf_to_int64 0%nat [(0, 0, 0)] [(1, 1, 1); (1, 1, 1)]
      [ArrF [(7, 7, 7)]] =
    (Ok [(7, 7, 7); (0, 0, 0)], [ArrF [sentinel]]) /\
  length [(7, 7, 7); (0, 0, 0)] = 2%nat.
Proof.
  split; [reflexivity|].
  apply (projector_output_length numpy_inf_to_int64 0%nat [(0, 0, 0)] [(1, 1, 1); (1, 1, 1)]
           [ArrF [(7, 7, 7)]] [(7, 7, 7); (0, 0, 0)] [ArrF [sentinel]]).
  reflexivity.
Defined.

Lemma projector_leaves_unpaired_rows_zero_witness :
  find_best_approximations numpy_inf_to_int64 0%nat [(0, 0, 0)] [(1, 1, 1); (1, 1, 1)]
      [ArrF [(7, 7, 7)]] =
    (Ok [(7, 7, 7); (0, 0, 0)], [ArrF [sentinel]]) /\
  [(7, 7, 7); (0, 0, 0)] !! 1%nat = Some (0, 0, 0).
Proof.
  split; [reflexivity|].
  apply (projector_leaves_unpaired_rows_zero numpy_inf_to_int64 0%nat [(0, 0, 0)]
           [(1, 1, 1); (1, 1, 1)] [ArrF [(7, 7, 7)]] [(7, 7, 7); (0, 0, 0)] [ArrF [sentinel]] 1%nat).
  - reflexivity.
  - cbn. lia.
Defined.

Lemma pool_slots_original_or_sentinel_witness :
  exists best pool',
    find_best_approximations numpy_inf_to_int64 0%nat
        [(0, 0, 0); (5, 0, 0)] [(1, 1, 1); (1, 1, 1)]
        [ArrF [(0, 0, 0); (5, 0, 0); (9, 9, 9)]] =
      (Ok best, <[0%nat := ArrF pool']> [ArrF [(0, 0, 0); (5, 0, 0); (9, 9, 9)]]) /\
    length pool' = length [(0, 0, 0); (5, 0, 0); (9, 9, 9)] /\
    (forall i p, pool' !! i = Some p ->
       p = sentinel \/ [(0, 0, 0); (5, 0, 0); (9, 9, 9)] !! i = Some p).
Proof.
  apply (pool_slots_original_or_sentinel numpy_inf_to_int64 0%nat
           [(0, 0, 0); (5, 0, 0)] [(1, 1, 1); (1, 1, 1)]
           [ArrF [(0, 0, 0); (5, 0, 0); (9, 9, 9)]] [(0, 0, 0); (5, 0, 0); (9, 9, 9)]).
  - reflexivity.
  - cbn. lia.
  - reflexivity.
  - reflexivity.
Defined.

Lemma consumed_slot_distance_not_finite_witness :
  plane_distance (1, -1, 0) (5, 0, 0) sentinel = nan /\
  is_finite (plane_distance (1, -1, 0) (5, 0, 0) sentinel) = false.
Proof.
  split; [reflexivity|].
  apply (consumed_slot_distance_not_finite (1, -1, 0) (5, 0, 0)).
  reflexivity.
Defined.

Lemma nan_distance_selects_first_nan_witness :
  abs_distances (1, 0, 0) (5, 0, 0) [(6, 0, 0); sentinel; (5, 0, 0)] = [1; nan; 0] /\
  fba_iteration numpy_inf_to_int64 0%nat 0%nat (5, 0, 0) (1, 0, 0) [(0, 0, 0)]
      [ArrF [(6, 0, 0); sentinel; (5, 0, 0)]] =
    (Ok (<[0%nat := [(6, 0, 0); sentinel; (5, 0, 0)] !!! 1%nat]> [(0, 0, 0)]),
     <[0%nat := ArrF (<[1%nat := sentinel]> [(6, 0, 0); sentinel; (5, 0, 0)])]>
       [ArrF [(6, 0, 0); sentinel; (5, 0, 0)]]).
Proof.
  split; [reflexivity|].
  apply (nan_distance_selects_first_nan numpy_inf_to_int64 0%nat 0%nat (5, 0, 0) (1, 0, 0)
           [(0, 0, 0)] [ArrF [(6, 0, 0); sentinel; (5, 0, 0)]]
           [(6, 0, 0); sentinel; (5, 0, 0)] 1%nat nan).
  - reflexivity.
  - reflexivity.
  - reflexivity.
  - reflexivity.
  - reflexivity.
Defined.


Lemma min_absolute_value_nan_witness :
  exists e, _min_absolute_value (1, 1, 1) (0, neg_infinity, nan) = Raise e /\
            (e = nan_error \/ e = infinity_error).
Proof.
  apply (min_absolute_value_nan 1 1 1 0 neg_infinity nan).
  reflexivity.
Defined.

Lemma nan_coordinate_stops_pipeline_witness :
  exists e,
    alphashape two_vertex_mesh numpy_inf_to_int64 0%nat 1%Z false
        [ArrF [(0, 0, 0); (25, nan, 0)]] =
      (Raise e, [ArrF [(0, 0, 0); (25, nan, 0)]]) /\
    (e = nan_error \/ e = infinity_error).
Proof.
  apply (nan_coordinate_stops_pipeline two_vertex_mesh numpy_inf_to_int64 0%nat 1%Z false
           [ArrF [(0, 0, 0); (25, nan, 0)]] [(0, 0, 0); (25, nan, 0)]).
  - reflexivity.
  - reflexivity.
Defined.

Lemma voxelizer_completes_iff_in_range_witness :
  coordinate_transform (ArrF [(0, 0, 0); (25, 25, 25)]) =
    Ok ((1, 1, 1), (0, 0, 0), (0, 0, 0)%Z, [(0, 0, 0, 1); (1, 1, 1, 1)]) /\
  sizes_nonneg (1, 1, 1) (0, 0, 0) = true /\
  forallb (in_range 2 2 2) (rounded_cloud [(0, 0, 0, 1); (1, 1, 1, 1)]) = true.
Proof.
  assert (coordinate_transform (ArrF [(0, 0, 0); (25, 25, 25)]) =
            Ok ((1, 1, 1), (0, 0, 0), (0, 0, 0)%Z, [(0, 0, 0, 1); (1, 1, 1, 1)])) as Hrun
    by reflexivity.
  split; [exact Hrun|].
  apply (voxelizer_completes_iff_in_range (ArrF [(0, 0, 0); (25, 25, 25)])
           (1, 1, 1) (0, 0, 0) (0, 0, 0)%Z [(0, 0, 0, 1); (1, 1, 1, 1)] []).
  - exact Hrun.
  - reflexivity.
Defined.

Lemma voxel_grid_shape_and_border_witness :
  voxelizer (1, 1, 1) (0, 0, 0) [(0, 0, 0, 1); (1, 1, 1, 1)] [] =
    (Ok (0%nat, two_voxel_grid), [ArrI [(0, 0, 0); (1, 1, 1)]%Z]) /\
  well_shaped (2 + 2) (2 + 2) (2 + 2) two_voxel_grid /\
  forall i j k x,
    on_border (2 + 2) (2 + 2) (2 + 2) i j k -> cell two_voxel_grid i j k = Some x -> x = 0.
Proof.
  split; [reflexivity|].
  apply (voxel_grid_shape_and_border (1, 1, 1) (0, 0, 0) [(0, 0, 0, 1); (1, 1, 1, 1)] []
           [ArrI [(0, 0, 0); (1, 1, 1)]%Z] 0%nat two_voxel_grid 2%nat 2%nat 2%nat).
  - reflexivity.
  - reflexivity.
Defined.

Lemma voxel_grid_marks_exactly_the_cloud_witness :
  (forall idx, idx ∈ rounded_cloud [(0, 0, 0, 1); (1, 1, 1, 1)] ->
     let '(i, j, k) := pos3 2 2 2 idx in cell two_voxel_grid (S i) (S j) (S k) = Some 1) /\
  (forall i j k x, cell two_voxel_grid i j k = Some x ->
     x = 0 \/
     (x = 1 /\
      exists idx, idx ∈ rounded_cloud [(0, 0, 0, 1); (1, 1, 1, 1)] /\
        let '(i', j', k') := pos3 2 2 2 idx in (i, j, k) = (S i', S j', S k'))).
Proof.
  apply (voxel_grid_marks_exactly_the_cloud (1, 1, 1) (0, 0, 0) [(0, 0, 0, 1); (1, 1, 1, 1)] []
           [ArrI [(0, 0, 0); (1, 1, 1)]%Z] 0%nat two_voxel_grid 2%nat 2%nat 2%nat).
  - reflexivity.
  - reflexivity.
Defined.
End MoreRuns.

(** ** Zeros of either sign in float64 arithmetic *)

Module SameNumber.
Import FloatFacts.
Local Open Scope float_scope.

Lemma zero_spec x : is_zero x = true <-> exists s, Prim2SF x = S754_zero s.
Proof.
  unfold is_zero. rewrite FloatAxioms.eqb_spec.
  change (Prim2SF zero) with (S754_zero false).
  destruct (Prim2SF x) as [s|s| |s m e]; cbn; split; try discriminate; eauto;
    try (intros [t [=]]); destruct s; discriminate.
Qed.

Lemma zero_finite x : is_zero x = true -> is_finite x = true.
Proof. intros [s Hs]%zero_spec. now rewrite is_finite_spec, Hs. Qed.

Lemma same_refl x : same_number x x.
Proof. now left. Qed.

Lemma same_sym x y : same_number x y -> same_number y x.
Proof. intros [->|[Hx Hy]]; [now left | now right]. Qed.

Lemma same_trans x y z : same_number x y -> same_number y z -> same_number x z.
Proof.
  intros [->|[Hx Hy]] [->|[Hy' Hz]]; try (now left); now right.
Qed.

Lemma same_finite x y : same_number x y -> is_finite y = true -> is_finite x = true.
Proof. intros [->|[Hx _]] Hy; [assumption | now apply zero_finite]. Qed.

Lemma same_nonzero x y : same_number x y -> is_zero y = false -> x = y.
Proof. intros [->|[_ Hy]] Hn; [reflexivity | congruence]. Qed.

Lemma add_zero_r a s : is_zero s = true -> same_number (a + s) a.
Proof.
  intros [ss Hs]%zero_spec. unfold same_number.
  destruct (Prim2SF a) as [sa|sa| |sa m e] eqn:Ea.
  - right. split; apply zero_spec; [|eauto].
    rewrite FloatAxioms.add_spec, Ea, Hs. cbn. destruct sa, ss; eauto.
  - left. apply Prim2SF_inj. now rewrite FloatAxioms.add_spec, Ea, Hs.
  - left. apply Prim2SF_inj. now rewrite FloatAxioms.add_spec, Ea, Hs.
  - left. apply Prim2SF_inj. now rewrite FloatAxioms.add_spec, Ea, Hs.
Qed.

Lemma add_zero_l a s : is_zero s = true -> same_number (s + a) a.
Proof.
  intros [ss Hs]%zero_spec. unfold same_number.
  destruct (Prim2SF a) as [sa|sa| |sa m e] eqn:Ea.
  - right. split; apply zero_spec; [|eauto].
    rewrite FloatAxioms.add_spec, Ea, Hs. cbn. destruct sa, ss; eauto.
  - left. apply Prim2SF_inj. now rewrite FloatAxioms.add_spec, Ea, Hs.
  - left. apply Prim2SF_inj. now rewrite FloatAxioms.add_spec, Ea, Hs.
  - left. apply Prim2SF_inj. now rewrite FloatAxioms.add_spec, Ea, Hs.
Qed.

Lemma add_zero_zero a b : is_zero a = true -> is_zero b = true -> is_zero (a + b) = true.
Proof.
  intros [sa Ha]%zero_spec [sb Hb]%zero_spec. apply zero_spec.
  rewrite FloatAxioms.add_spec, Ha, Hb. cbn. destruct sa, sb; eauto.
Qed.

Lemma mul_zero_l s y : is_zero s = true -> is_finite y = true -> is_zero (s * y) = true.
Proof.
  intros [ss Hs]%zero_spec Hy. apply zero_spec.
  rewrite is_finite_spec in Hy. rewrite FloatAxioms.mul_spec, Hs.
  destruct (Prim2SF y) as [sy|sy| |sy m e]; try discriminate; cbn; eauto.
Qed.

Lemma mul_zero_r s y : is_zero s = true -> is_finite y = true -> is_zero (y * s) = true.
Proof.
  intros [ss Hs]%zero_spec Hy. apply zero_spec.
  rewrite is_finite_spec in Hy. rewrite FloatAxioms.mul_spec, Hs.
  destruct (Prim2SF y) as [sy|sy| |sy m e]; try discriminate; cbn; eauto.
Qed.

Lemma same_add_l a a' k : same_number a a' -> same_number (a + k) (a' + k).
Proof.
  intros [->|[Ha Ha']]; [apply same_refl|].
  eapply same_trans; [now apply add_zero_l|]. apply same_sym. now apply add_zero_l.
Qed.

Lemma same_add_r a k k' : same_number k k' -> same_number (a + k) (a + k').
Proof.
  intros [->|[Hk Hk']]; [apply same_refl|].
  eapply same_trans; [now apply add_zero_r|]. apply same_sym. now apply add_zero_r.
Qed.

Lemma same_mul_r k a a' :
  is_finite k = true -> same_number a a' -> same_number (k * a) (k * a').
Proof.
  intros Hk [->|[Ha Ha']]; [apply same_refl|].
  right. split; now apply mul_zero_r.
Qed.

Lemma same_mul_l k a a' :
  is_finite k = true -> same_number a a' -> same_number (a * k) (a' * k).
Proof.
  intros Hk [->|[Ha Ha']]; [apply same_refl|].
  right. split; now apply mul_zero_l.
Qed.

(** A row of a matrix with one entry [a] among its first three and zeros
    elsewhere there, against a column of finite floats: the products by
    zero do not change the number computed. *)
Lemma dot4_axis0 a b x y z w :
  is_finite y = true -> is_finite z = true ->
  same_number (dot4 (a, 0, 0, b) (x, y, z, w)) (a * x + b * w).
Proof.
  intros Hy Hz. unfold dot4. cbn [sc_add sc_mul float_scalar].
  apply same_add_l. eapply same_trans; apply add_zero_r; now apply mul_zero_l.
Qed.

Lemma dot4_axis1 a b x y z w :
  is_finite x = true -> is_finite z = true ->
  same_number (dot4 (0, a, 0, b) (x, y, z, w)) (a * y + b * w).
Proof.
  intros Hx Hz. unfold dot4. cbn [sc_add sc_mul float_scalar].
  apply same_add_l. eapply same_trans; [apply add_zero_r | apply add_zero_l];
    now apply mul_zero_l.
Qed.

Lemma dot4_axis2 a b x y z w :
  is_finite x = true -> is_finite y = true ->
  same_number (dot4 (0, 0, a, b) (x, y, z, w)) (a * z + b * w).
Proof.
  intros Hx Hy. unfold dot4. cbn [sc_add sc_mul float_scalar].
  apply same_add_l, add_zero_l, add_zero_zero; now apply mul_zero_l.
Qed.

Lemma dot4_axis3 b x y z w :
  is_finite x = true -> is_finite y = true -> is_finite z = true ->
  same_number (dot4 (0, 0, 0, b) (x, y, z, w)) (b * w).
Proof.
  intros Hx Hy Hz. unfold dot4. cbn [sc_add sc_mul float_scalar].
  apply add_zero_l. repeat apply add_zero_zero; now apply mul_zero_l.
Qed.

(** A matrix of scale [a] and translation [t] applied to a homogeneous
    point of finite coordinates. *)
Lemma scale_translate a t0 t1 t2 x y z :
  is_finite x = true -> is_finite y = true -> is_finite z = true ->
  exists r0 r1 r2,
    mat_vec ((a, 0, 0, t0), (0, a, 0, t1), (0, 0, a, t2), (0, 0, 0, 1)) (x, y, z, 1) =
      (r0, r1, r2, 1) /\
    same_number r0 (a * x + t0 * 1) /\
    same_number r1 (a * y + t1 * 1) /\
    same_number r2 (a * z + t2 * 1).
Proof.
  intros Hx Hy Hz. unfold mat_vec.
  exists (dot4 (a, 0, 0, t0) (x, y, z, 1)), (dot4 (0, a, 0, t1) (x, y, z, 1)),
    (dot4 (0, 0, a, t2) (x, y, z, 1)).
  split; [|split; [now apply dot4_axis0 | split; [now apply dot4_axis1 | now apply dot4_axis2]]].
  do 3 f_equal.
  now apply (same_nonzero _ 1 (dot4_axis3 1 x y z 1 Hx Hy Hz)).
Qed.
End SameNumber.

(** ** The transforms on the sampling grid, in float64 *)

Section RoundTrip.
Import SameNumber.
Local Open Scope float_scope.

Lemma inv_transform_scale_float :
  inv_transform_scale (T:=float) =
    ((1 / 25, 0, 0, 0), (0, 1 / 25, 0, 0), (0, 0, 1 / 25, 0), (0, 0, 0, 1)).
Proof. reflexivity. Qed.

Lemma transform_direction_float h0 h1 h2 :
  transform_direction (T:=float) (h0, h1, h2) =
    ((1, 0, 0, F.of_Z (- h0)), (0, 1, 0, F.of_Z (- h1)), (0, 0, 1, F.of_Z (- h2)),
     (0, 0, 0, 1)).
Proof. reflexivity. Qed.

(** The matrix of lines 88 and 92, the product computed in float64. *)
Lemma inverse_matrix_float h0 h1 h2 :
  is_finite (F.of_Z h0) = true -> is_finite (F.of_Z h1) = true ->
  is_finite (F.of_Z h2) = true ->
  exists t0 t1 t2,
    mat_mat (T:=float) transform_scale (inv_transform_direction (h0, h1, h2)) =
      ((25, 0, 0, t0), (0, 25, 0, t1), (0, 0, 25, t2), (0, 0, 0, 1)) /\
    same_number t0 (25 * F.of_Z h0) /\
    same_number t1 (25 * F.of_Z h1) /\
    same_number t2 (25 * F.of_Z h2).
Proof.
  intros H0 H1 H2.
  set (col := (F.of_Z h0, F.of_Z h1, F.of_Z h2, 1)).
  exists (dot4 (25, 0, 0, 0) col), (dot4 (0, 25, 0, 0) col), (dot4 (0, 0, 25, 0) col).
  assert (is_zero (0 * 1) = true) as Hz by reflexivity.
  split; [|split; [|split]].
  - change (mat_mat (T:=float) transform_scale (inv_transform_direction (h0, h1, h2)))
      with ((25, 0, 0, dot4 (25, 0, 0, 0) col), (0, 25, 0, dot4 (0, 25, 0, 0) col),
            (0, 0, 25, dot4 (0, 0, 25, 0) col), (0, 0, 0, dot4 (0, 0, 0, 1) col)).
    do 2 f_equal.
    now apply (same_nonzero _ 1 (dot4_axis3 1 _ _ _ 1 H0 H1 H2)).
  - eapply same_trans; [now apply dot4_axis0 | now apply add_zero_r].
  - eapply same_trans; [now apply dot4_axis1 | now apply add_zero_r].
  - eapply same_trans; [now apply dot4_axis2 | now apply add_zero_r].
Qed.

Lemma axis_forward_same x x' h :
  same_number x x' -> same_number (axis_forward x h) (axis_forward x' h).
Proof.
  intros Hx. unfold axis_forward.
  apply same_add_l, same_mul_r; [reflexivity|]. now apply same_mul_r.
Qed.

Lemma axis_inverse_same v v' h :
  same_number v v' -> same_number (axis_inverse v h) (axis_inverse v' h).
Proof. intros Hv. unfold axis_inverse. now apply same_add_l, same_mul_r. Qed.

(** Real space to voxel space, axis by axis. *)
Lemma forward_float h0 h1 h2 x y z :
  is_finite x = true -> is_finite y = true -> is_finite z = true ->
  is_finite (1 / 25 * x) = true -> is_finite (1 / 25 * y) = true ->
  is_finite (1 / 25 * z) = true ->
  exists v0 v1 v2,
    forward (h0, h1, h2) (x, y, z, 1) = (v0, v1, v2, 1) /\
    same_number v0 (axis_forward x h0) /\
    same_number v1 (axis_forward y h1) /\
    same_number v2 (axis_forward z h2).
Proof.
  intros Hx Hy Hz Hx' Hy' Hz'. unfold forward.
  rewrite inv_transform_scale_float, transform_direction_float.
  destruct (scale_translate (1 / 25) 0 0 0 x y z Hx Hy Hz) as (u0 & u1 & u2 & -> & U0 & U1 & U2).
  assert (is_zero (0 * 1) = true) as Hzero by reflexivity.
  assert (same_number u0 (1 / 25 * x)) as S0
    by (eapply same_trans; [exact U0 | now apply add_zero_r]).
  assert (same_number u1 (1 / 25 * y)) as S1
    by (eapply same_trans; [exact U1 | now apply add_zero_r]).
  assert (same_number u2 (1 / 25 * z)) as S2
    by (eapply same_trans; [exact U2 | now apply add_zero_r]).
  destruct (scale_translate 1 (F.of_Z (- h0)) (F.of_Z (- h1)) (F.of_Z (- h2)) u0 u1 u2)
    as (v0 & v1 & v2 & -> & V0 & V1 & V2);
    try (eapply same_finite; eassumption).
  exists v0, v1, v2. split; [reflexivity|]. unfold axis_forward.
  split; [|split]; (eapply same_trans; [eassumption|]); apply same_add_l;
    now apply same_mul_r.
Qed.

(** Voxel space to real space, axis by axis. *)
Lemma inverse_float h0 h1 h2 v0 v1 v2 :
  is_finite (F.of_Z h0) = true -> is_finite (F.of_Z h1) = true ->
  is_finite (F.of_Z h2) = true ->
  is_finite v0 = true -> is_finite v1 = true -> is_finite v2 = true ->
  exists r0 r1 r2,
    inverse (h0, h1, h2) (v0, v1, v2, 1) = (r0, r1, r2, 1) /\
    same_number r0 (axis_inverse v0 h0) /\
    same_number r1 (axis_inverse v1 h1) /\
    same_number r2 (axis_inverse v2 h2).
Proof.
  intros H0 H1 H2 Hv0 Hv1 Hv2. unfold inverse.
  destruct (inverse_matrix_float h0 h1 h2 H0 H1 H2) as (t0 & t1 & t2 & -> & T0 & T1 & T2).
  destruct (scale_translate 25 t0 t1 t2 v0 v1 v2 Hv0 Hv1 Hv2)
    as (r0 & r1 & r2 & -> & R0 & R1 & R2).
  exists r0, r1, r2. split; [reflexivity|]. unfold axis_inverse.
  split; [|split]; (eapply same_trans; [eassumption|]); apply same_add_r;
    now apply same_mul_l.
Qed.

Lemma in_zrange B n : (Z.abs n <= B)%Z -> In n (zrange B).
Proof.
  intros Hn. unfold zrange. apply in_map_iff.
  exists (Z.to_nat (n + B)). split; [lia|]. apply in_seq. lia.
Qed.

(** What the check of a range establishes for an index and a shift in it. *)
Lemma grid_check_axis B n h :
  grid_check B = true -> (Z.abs n <= B)%Z -> (Z.abs h <= B)%Z ->
  is_finite (F.of_Z (25 * n)) = true /\
  is_finite (1 / 25 * F.of_Z (25 * n)) = true /\
  is_finite (F.of_Z h) = true /\
  is_finite (axis_forward (F.of_Z (25 * n)) h) = true /\
  axis_forward (F.of_Z (25 * n)) h = F.of_Z (n - h) /\
  axis_inverse (axis_forward (F.of_Z (25 * n)) h) h = F.of_Z (25 * n).
Proof.
  unfold grid_check. cbv zeta. intros [Htable Hgrid]%andb_true_iff Hn Hh.
  pose proof (proj1 (forallb_forall _ _) Hgrid n (in_zrange B n Hn)) as Hrow.
  cbv beta in Hrow. apply andb_true_iff in Hrow as [[HX Ht]%andb_true_iff Hrow].
  assert (In (h, (F.of_Z h, F.of_Z (- h))) (shift_table B)) as Hin.
  { unfold shift_table. apply in_map_iff. exists h. split; [reflexivity|]. now apply in_zrange. }
  pose proof (proj1 (forallb_forall _ _) Htable _ Hin) as Hfin. cbv beta iota in Hfin.
  apply andb_true_iff in Hfin as [HH _].
  pose proof (proj1 (forallb_forall _ _) Hrow _ Hin) as Hax.
  unfold axis_check in Hax.
  apply andb_true_iff in Hax as [[Hd Hfwd]%andb_true_iff Hinv].
  apply FloatAxioms.Leibniz.eqb_spec in Hfwd, Hinv.
  unfold axis_forward, axis_inverse. auto 10.
Qed.

Lemma grid_check_500 : grid_check 500 = true.
Proof. vm_compute. reflexivity. Qed.
End RoundTrip.

(** ** The round trip through voxel space *)

Section RoundTripClaims.
Import SameNumber.
Local Open Scope float_scope.



End RoundTripClaims.
